(** * amana-chat: the token route and the chat component

    A shallow embedding of the two source files of the repository:

    - [app/api/ably-token/route.ts], the [GET] handler that hands out Ably
      token requests (module [Route]);
    - the React component [App] with its effects, its subscription
      callback and [handleSendMessage] (module [Chat]).

    The Ably library, [Math.random], [console] and React itself are
    collaborators of the code: their calls are recorded in traces and their
    answers are inputs of the model. *)

From Stdlib Require Import String Ascii List Bool ZArith NArith Lia.
From Stdlib Require Import Decimal DecimalString DecimalPos DecimalN.
Import ListNotations.

Local Open Scope list_scope.
Local Open Scope string_scope.

(** ** JavaScript values shared by both files *)

Module JS.

(** A value thrown by JavaScript code (or the reason of a rejected promise). *)
Inductive Error : Type :=
| mkError (message : string).

(** How the evaluation of a function body ends: it returns, or a [throw]
    leaves it. *)
Inductive Completion (A : Type) : Type :=
| Normal (a : A)
| Throw (e : Error).
Arguments Normal {A} a.
Arguments Throw {A} e.

Definition code (c : ascii) : N := N_of_ascii c.

(** The double quote, code unit 34. *)
Definition dquote : ascii := ascii_of_N 34.
Definition backslash : ascii := ascii_of_N 92.

(** [String.prototype.includes]: [includes needle s] is [s.includes(needle)]. *)
Fixpoint includes (needle s : string) : bool :=
  if prefix needle s then true
  else match s with
       | EmptyString => false
       | String _ rest => includes needle rest
       end.

(** White space and line terminators of ECMAScript among the code units
    below 256: TAB, LF, VT, FF, CR, SP and NBSP. *)
Definition isWhiteSpace (c : ascii) : bool :=
  let n := code c in
  ((9 <=? n) && (n <=? 13) || (n =? 32) || (n =? 160))%N.

Fixpoint trimStart (s : string) : string :=
  match s with
  | EmptyString => EmptyString
  | String c rest => if isWhiteSpace c then trimStart rest else s
  end.

Fixpoint trimEnd (s : string) : string :=
  match s with
  | EmptyString => EmptyString
  | String c rest =>
      match trimEnd rest with
      | EmptyString => if isWhiteSpace c then EmptyString else String c EmptyString
      | kept => String c kept
      end
  end.

(** [String.prototype.trim]. *)
Definition trim (s : string) : string := trimEnd (trimStart s).

(** Every code unit is white space. *)
Fixpoint blank (s : string) : bool :=
  match s with
  | EmptyString => true
  | String c rest => isWhiteSpace c && blank rest
  end.

(** Number-to-string conversion of a non-negative integer, as in
    ["amana-chat-user-" + 42]. *)
Definition decimal (n : N) : string := NilEmpty.string_of_uint (N.to_uint n).

Definition isDigit (c : ascii) : bool :=
  let n := code c in ((48 <=? n) && (n <=? 57))%N.

Fixpoint allDigits (s : string) : bool :=
  match s with
  | EmptyString => true
  | String c rest => isDigit c && allDigits rest
  end.

(** The regular expression [^prefix\d+$]. *)
Fixpoint matchesPrefixDigits (pre s : string) : bool :=
  match pre with
  | EmptyString =>
      match s with
      | EmptyString => false
      | String _ _ => allDigits s
      end
  | String p pre' =>
      match s with
      | EmptyString => false
      | String c rest => Ascii.eqb p c && matchesPrefixDigits pre' rest
      end
  end.

(** *** JSON values and [JSON.stringify] *)

#[warnings="-register-all"]
Inductive json : Type :=
| JNull
| JBool (b : bool)
| JNum (z : Z)
| JStr (s : string)
| JArr (items : list json)
| JObj (members : list (string * json)).

Definition hexDigit (n : N) : ascii :=
  if (n <? 10)%N then ascii_of_N (48 + n) else ascii_of_N (87 + n).

(** One code unit inside a JSON string literal (QuoteJSONString). *)
Definition escapeChar (c : ascii) : string :=
  let n := code c in
  if (n =? 34)%N then String backslash (String dquote EmptyString)
  else if (n =? 92)%N then String backslash (String backslash EmptyString)
  else if (n =? 8)%N then String backslash "b"
  else if (n =? 9)%N then String backslash "t"
  else if (n =? 10)%N then String backslash "n"
  else if (n =? 12)%N then String backslash "f"
  else if (n =? 13)%N then String backslash "r"
  else if (n <? 32)%N then
    String backslash
      ("u00" ++ String (hexDigit (n / 16)) (String (hexDigit (n mod 16)) EmptyString))
  else String c EmptyString.

Fixpoint escape (s : string) : string :=
  match s with
  | EmptyString => EmptyString
  | String c rest => escapeChar c ++ escape rest
  end.

Definition quoteJSON (s : string) : string :=
  String dquote (escape s ++ String dquote EmptyString).

Definition decimalZ (z : Z) : string := NilZero.string_of_int (Z.to_int z).

Fixpoint stringify (j : json) : string :=
  match j with
  | JNull => "null"
  | JBool true => "true"
  | JBool false => "false"
  | JNum z => decimalZ z
  | JStr s => quoteJSON s
  | JArr items =>
      "[" ++ (fix elements (l : list json) : string :=
                match l with
                | [] => ""
                | x :: r =>
                    stringify x ++ match r with [] => "" | _ => "," ++ elements r end
                end) items ++ "]"
  | JObj members =>
      "{" ++ (fix fields (l : list (string * json)) : string :=
                match l with
                | [] => ""
                | (k, v) :: r =>
                    quoteJSON k ++ ":" ++ stringify v
                      ++ match r with [] => "" | _ => "," ++ fields r end
                end) members ++ "}"
  end.

(** *** Handler code

    Code that calls the outside: it extends the trace of the calls made so
    far (oldest first) and returns or throws. [E] is the type of the
    recorded calls. *)
Definition M (E A : Type) : Type := list E -> Completion A * list E.

Definition ret {E A} (a : A) : M E A := fun t => (Normal a, t).

Definition bind {E A B} (m : M E A) (k : A -> M E B) : M E B :=
  fun t =>
    match m t with
    | (Normal a, t') => k a t'
    | (Throw e, t') => (Throw e, t')
    end.

(** [try { m } catch (err) { h err }]. *)
Definition try_catch {E A} (m : M E A) (h : Error -> M E A) : M E A :=
  fun t =>
    match m t with
    | (Normal a, t') => (Normal a, t')
    | (Throw e, t') => h e t'
    end.

(** A call to the outside: recorded, and it ends as the outside says. *)
Definition call {E A} (ev : E) (answer : Completion A) : M E A :=
  fun t => (answer, (t ++ [ev])%list).

Notation "x <- m ;; k" := (bind m (fun x => k))
  (at level 61, m at next level, right associativity).
Notation "m ;;; k" := (bind m (fun _ => k))
  (at level 61, right associativity).

End JS.

(** ** [app/api/ably-token/route.ts] *)

Module Route.
Import JS.

(** [process.env]: the one variable the handler reads; [None] is
    [undefined]. *)
Record Env : Type := { ABLY_API_KEY : option string }.

(** JavaScript truthiness of a [string | undefined]: [undefined] and the
    empty string are falsy. *)
Definition truthy (v : option string) : bool :=
  match v with
  | None => false
  | Some s => negb (s =? "")
  end.

(** The REST client [new Ably.Rest(key)] builds; it remembers the key it was
    given. *)
Record RestClient : Type := { restKey : option string }.

(** The Ably library as the handler uses it: the constructor [Ably.Rest]
    and [client.auth.createTokenRequest({clientId})], awaited, so a rejected
    promise is a [Throw]. What they answer is up to the library. *)
Record Ably : Type := {
  Rest : option string -> Completion RestClient;
  createTokenRequest : RestClient -> string -> Completion json
}.

(** What the handler does to the outside, in order. *)
Inductive IO : Type :=
| NewRest (key : option string)
| CreateTokenRequest (client : RestClient) (clientId : string)
| ConsoleError (label : string) (err : Error).

Record Response : Type := {
  status : Z;
  body : string;
  headers : list (string * string)
}.

Definition console_error (label : string) (err : Error) : M IO unit :=
  call (ConsoleError label err) (Normal tt).

Definition error_body (message : string) : string :=
  stringify (JObj [("error", JStr message)]).

(** The handler. [random10000] is the value of
    [Math.floor(Math.random() * 10000)] in this request: [Math.random]
    answers in [0, 1), so the floor is a natural number. *)
Definition GET (env : Env) (ably : Ably) (random10000 : N) : M IO Response :=
  if negb (truthy (ABLY_API_KEY env)) then
    ret {| status := 500;
           body := error_body "ABLY_API_KEY not set";
           headers := [] |}
  else
    try_catch
      (client <- call (NewRest (ABLY_API_KEY env)) (Rest ably (ABLY_API_KEY env)) ;;
       tokenRequest <-
         (let clientId := "amana-chat-user-" ++ decimal random10000 in
          call (CreateTokenRequest client clientId)
               (createTokenRequest ably client clientId)) ;;
       ret {| status := 200;
              body := stringify tokenRequest;
              headers := [("Content-Type", "application/json")] |})
      (fun err =>
         console_error "Ably token error:" err ;;;
         ret {| status := 500;
                body := error_body "Failed to create token";
                headers := [] |}).

(** What the library answers to the two calls of the [try] block, taken
    together: the first [Throw] wins. *)
Definition upstreamOutcome (env : Env) (ably : Ably) (random10000 : N)
  : Completion json :=
  match Rest ably (ABLY_API_KEY env) with
  | Throw e => Throw e
  | Normal client =>
      createTokenRequest ably client ("amana-chat-user-" ++ decimal random10000)
  end.

(** One request: the handler run from an empty trace. *)
Definition serve (env : Env) (ably : Ably) (random10000 : N)
  : Completion Response * list IO :=
  GET env ably random10000 [].

(** The calls of a trace that reach the Ably library. *)
Definition isUpstream (ev : IO) : bool :=
  match ev with
  | NewRest _ | CreateTokenRequest _ _ => true
  | ConsoleError _ _ => false
  end.

Definition upstreamCalls (t : list IO) : list IO := filter isUpstream t.

(** A library double for examples: it signs every request for a key of the
    form the dashboard shows and answers with the fields of a token
    request. *)
Definition signerDouble : Ably := {|
  Rest := fun key => Normal {| restKey := key |};
  createTokenRequest := fun _ clientId =>
    Normal (JObj [("keyName", JStr "appid.keyid");
                  ("clientId", JStr clientId);
                  ("ttl", JNum 3600000);
                  ("mac", JStr "c2lnbmF0dXJl")])
|}.

(** A library double whose signing call rejects with the given error. *)
Definition failingDouble (e : Error) : Ably := {|
  Rest := fun key => Normal {| restKey := key |};
  createTokenRequest := fun _ _ => Throw e
|}.

End Route.

(** *** Readings of the trace of a request *)

Module RouteTrace.
Import JS Route.

(** The identities a request asked tokens for. *)
Definition createdIdentities (t : list IO) : list string :=
  flat_map (fun ev => match ev with
                      | CreateTokenRequest _ clientId => [clientId]
                      | _ => []
                      end) t.


(** ASCII lower case, as header names are compared. *)
Definition toLowerAscii (c : ascii) : ascii :=
  let n := code c in
  if ((65 <=? n) && (n <=? 90))%N then ascii_of_N (n + 32) else c.

Fixpoint toLowerCase (s : string) : string :=
  match s with
  | EmptyString => EmptyString
  | String c rest => String (toLowerAscii c) (toLowerCase rest)
  end.

(** [response.headers.get("content-type")] of a response built by
    [new Response(body, init)] with a string for body: the header of
    [init] when it names one, and otherwise the type a string body brings
    with it. [headers] holds the headers of [init]. *)
Definition contentType (r : Response) : string :=
  match find (fun h => toLowerCase (fst h) =? "content-type") (headers r) with
  | Some h => snd h
  | None => "text/plain;charset=UTF-8"
  end.

End RouteTrace.


(** ** The chat component [App] *)

Module Chat.
Import JS.

(** The structure of an Ably message for the app. *)
Record AblyMessage : Type := {
  id : string;
  name : string;
  data : string;
  timestamp : Z
}.

(** The client and the channel are [any] in the source: handles that
    remember how they were obtained. *)
Inductive AblyClient : Type :=
| Realtime (authUrl : string).

Inductive AblyChannel : Type :=
| ChannelOf (client : AblyClient) (channelName : string).

(** The [useState] cells of the component. *)
Record AppState : Type := {
  ably : option AblyClient;
  channel : option AblyChannel;
  messages : list AblyMessage;
  messageText : string;
  username : string;
  ablyScriptLoaded : bool
}.

Definition setAbly (v : option AblyClient) (s : AppState) : AppState :=
  {| ably := v; channel := channel s; messages := messages s;
     messageText := messageText s; username := username s;
     ablyScriptLoaded := ablyScriptLoaded s |}.

Definition setChannel (v : option AblyChannel) (s : AppState) : AppState :=
  {| ably := ably s; channel := v; messages := messages s;
     messageText := messageText s; username := username s;
     ablyScriptLoaded := ablyScriptLoaded s |}.

(** [setMessages] takes an updater, as at its only call site. *)
Definition setMessages (f : list AblyMessage -> list AblyMessage) (s : AppState)
  : AppState :=
  {| ably := ably s; channel := channel s; messages := f (messages s);
     messageText := messageText s; username := username s;
     ablyScriptLoaded := ablyScriptLoaded s |}.

Definition setMessageText (v : string) (s : AppState) : AppState :=
  {| ably := ably s; channel := channel s; messages := messages s;
     messageText := v; username := username s;
     ablyScriptLoaded := ablyScriptLoaded s |}.

Definition setAblyScriptLoaded (v : bool) (s : AppState) : AppState :=
  {| ably := ably s; channel := channel s; messages := messages s;
     messageText := messageText s; username := username s;
     ablyScriptLoaded := v |}.

(** The state of the first render. [random10000] is the value of
    [Math.floor(Math.random() * 10000)] in the initialiser of [username]. *)
Definition initialState (random10000 : N) : AppState :=
  {| ably := None; channel := None; messages := []; messageText := "";
     username := "user-" ++ decimal random10000;
     ablyScriptLoaded := false |}.

(** What the component does to the outside: the DOM, the console and the
    Ably client. *)
Inductive Effect : Type :=
| AppendScript (src : string)
| RemoveScript (src : string)
| ConsoleError (message : string)
| NewRealtime (authUrl : string)
| ChannelsGet (client : AblyClient) (channelName : string)
| Subscribe (ch : AblyChannel)
| Publish (ch : AblyChannel) (name data : string)
| Close (client : AblyClient)
| PreventDefault.

Definition isPublish (e : Effect) : bool :=
  match e with Publish _ _ _ => true | _ => false end.

Definition isClose (e : Effect) : bool :=
  match e with Close _ => true | _ => false end.

Definition cdn : string := "https://cdn.ably.com/lib/ably.min-2.js".

(** The effect that connects, run with the state of its render. It answers
    the new state and the client its cleanup captures, if it registered
    one. The library calls are taken to return: the constructor and
    [channels.get] hand out handles, [subscribe] returns a promise nobody
    reads. *)
Definition connectEffect (s : AppState)
  : M Effect (AppState * option AblyClient) :=
  if negb (ablyScriptLoaded s) then ret (s, None)
  else
    ablyClient <- call (NewRealtime "/api/ably-token")
                       (Normal (Realtime "/api/ably-token")) ;;
    chatChannel <- call (ChannelsGet ablyClient "amana-chat")
                        (Normal (ChannelOf ablyClient "amana-chat")) ;;
    call (Subscribe chatChannel) (Normal tt) ;;;
    ret (setChannel (Some chatChannel) (setAbly (Some ablyClient) s),
         Some ablyClient).

(** The callback given to [chatChannel.subscribe]. *)
Definition onMessage (msg : AblyMessage) (s : AppState) : AppState :=
  setMessages (fun prevMessages => (prevMessages ++ [msg])%list) s.

(** The cleanup of the connecting effect; [ablyClient] is the client the
    effect created. *)
Definition connectCleanup (ablyClient : AblyClient) : M Effect unit :=
  call (Close ablyClient) (Normal tt).

(** The submit handler of the form, run with the state of its render. The
    promise [channel.publish] returns is dropped. *)
Definition handleSendMessage (s : AppState) : M Effect AppState :=
  call PreventDefault (Normal tt) ;;;
  if trim (messageText s) =? "" then ret s
  else
    match channel s with
    | Some ch =>
        call (Publish ch (username s) (messageText s)) (Normal tt) ;;;
        ret (setMessageText "" s)
    | None => ret s
    end.

(** One submit on its own: how the handler ends and the calls it made. *)
Definition send (s : AppState) : Completion AppState * list Effect :=
  handleSendMessage s [].

Definition published (r : Completion AppState * list Effect) : bool :=
  existsb isPublish (snd r).

(** The inbound callback run on a batch of events, in the order of
    delivery. *)
Definition deliver (events : list AblyMessage) (s : AppState) : AppState :=
  fold_left (fun acc msg => onMessage msg acc) events s.

(** *** The session around the component

    The state of the connection belongs to the Ably client; the component
    keeps no copy of it and never reads it. *)
Inductive ConnectionState : Type :=
| Idle | Connecting | Connected | Suspended | Closed | Failed.

Inductive TransportEvent : Type :=
| TConnected | TDropped | TResumed | TFailed.

(** Modelled from the spec: the realtime transport is a library outside the
    repository; its transitions follow the table of section 4.2 (connected,
    recoverable drop, re-established, unrecoverable failure while
    connecting). By the same table, opening the transport takes the
    session from [Idle] to [Connecting] and [close()] takes it to [Closed];
    [step] and [stop] below follow it there. *)
Definition transport (ev : TransportEvent) (c : ConnectionState)
  : ConnectionState :=
  match ev, c with
  | TConnected, Connecting => Connected
  | TDropped, Connected => Suspended
  | TResumed, Suspended => Connected
  | TFailed, Connecting => Failed
  | _, _ => c
  end.

Record World : Type := {
  app : AppState;
  (** the component is mounted *)
  mounted : bool;
  (** the client of the connecting effect that ran, which its subscription
      and its cleanup hold *)
  session : option AblyClient;
  (** the connection state of the transport *)
  conn : ConnectionState;
  (** every call made so far, oldest first *)
  log : list Effect
}.

(** After the first render and the effect that appends the script tag. *)
Definition init (random10000 : N) : World :=
  {| app := initialState random10000; mounted := true; session := None;
     conn := Idle; log := [AppendScript cdn] |}.

Inductive Event : Type :=
| ScriptLoaded                      (* script.onload *)
| ScriptError                       (* script.onerror *)
| Transport (ev : TransportEvent)   (* the connection moves on its own *)
| Inbound (msg : AblyMessage)       (* the channel delivers a message *)
| Change (text : string)            (* onChange of the input *)
| Submit                            (* onSubmit of the form *)
| Unmount.                          (* React unmounts the component *)

(** [stop()]: the registered cleanup of the connecting effect is called.
    The client's [close()] leaves the connection closed. Before the effect
    has connected there is no cleanup to call. *)
Definition stop (w : World) : Completion unit * World :=
  match session w with
  | None => (Normal tt, w)
  | Some ablyClient =>
      let r := connectCleanup ablyClient (log w) in
      (fst r,
       {| app := app w; mounted := mounted w; session := session w;
          conn := Closed; log := snd r |})
  end.

(** A handler ran in the world: its calls are kept; its state is kept
    when it returned. *)
Definition commit (w : World) (r : Completion AppState * list Effect) : World :=
  {| app := match fst r with Normal s => s | Throw _ => app w end;
     mounted := mounted w; session := session w; conn := conn w;
     log := snd r |}.

(** [script.onerror]. The handler sits on the script element and is never
    taken off it: the cleanup of the loading effect removes the tag and
    nothing else, so a load error is logged whether or not the component
    is still mounted. *)
Definition onScriptError (w : World) : World :=
  commit w (Normal (app w),
            (log w ++ [ConsoleError "Failed to load Ably script from CDN."])%list).

(** The cleanup of the loading effect. *)
Definition removeScript (w : World) : World :=
  {| app := app w; mounted := mounted w; session := session w;
     conn := conn w; log := (log w ++ [RemoveScript cdn])%list |}.

Definition step (ev : Event) (w : World) : World :=
  if negb (mounted w) then
    (* nothing of an unmounted component runs, but for the handler left
       on the script element *)
    match ev with
    | ScriptError => onScriptError w
    | _ => w
    end
  else
    match ev with
    | ScriptLoaded =>
        if ablyScriptLoaded (app w) then w
        else
          match connectEffect (setAblyScriptLoaded true (app w)) (log w) with
          | (Normal (s, Some ablyClient), t) =>
              {| app := s; mounted := true; session := Some ablyClient;
                 conn := Connecting; log := t |}
          | (Normal (s, None), t) =>
              {| app := s; mounted := true; session := session w;
                 conn := conn w; log := t |}
          | (Throw _, t) =>
              {| app := setAblyScriptLoaded true (app w); mounted := true;
                 session := session w; conn := conn w; log := t |}
          end
    | ScriptError => onScriptError w
    | Transport t =>
        {| app := app w; mounted := true; session := session w;
           conn := transport t (conn w); log := log w |}
    | Inbound msg =>
        match session w with
        | Some _ => commit w (Normal (onMessage msg (app w)), log w)
        | None => w
        end
    | Change text =>
        (* the input is disabled while [ably] is null *)
        match ably (app w) with
        | Some _ => commit w (Normal (setMessageText text (app w)), log w)
        | None => w
        end
    | Submit => commit w (handleSendMessage (app w) (log w))
    | Unmount =>
        (* React runs the cleanups in the order of their effects: the
           script tag goes first, then the client is closed *)
        let w' := snd (stop (removeScript w)) in
        {| app := app w'; mounted := false; session := session w';
           conn := conn w'; log := log w' |}
    end.

Definition run (events : list Event) (w : World) : World :=
  fold_left (fun acc ev => step ev acc) events w.

Definition closeCalls (w : World) : nat := length (filter isClose (log w)).

(** Before the script has loaded nothing is connected and both handles are
    null; afterwards the client and the channel are set for good, whatever
    the connection does. *)
Definition wired (w : World) : Prop :=
  (conn w = Idle /\ session w = None /\ ably (app w) = None /\
   channel (app w) = None /\ ablyScriptLoaded (app w) = false)
  \/
  (conn w <> Idle /\ session w <> None /\ ably (app w) <> None /\
   channel (app w) <> None /\ ablyScriptLoaded (app w) = true).


End Chat.

(** ** What [App] renders *)

Module ChatView.
Import JS Chat.

(** [!x] for an object or [null]. *)
Definition isNull {A : Type} (o : option A) : bool :=
  match o with
  | None => true
  | Some _ => false
  end.

(** One [<li>] of the message list. The time is kept as the timestamp it
    is printed from ([toLocaleTimeString] depends on the locale of the
    browser); of the classes, the part that depends on the sender. *)
Record MessageItem : Type := {
  itemKey : string;
  senderClass : string;
  senderLabel : string;
  bubbleOwn : bool;
  itemText : string;
  itemTime : Z
}.

Definition renderMessage (username : string) (msg : AblyMessage) : MessageItem :=
  {| itemKey := id msg;
     senderClass :=
       "font-semibold " ++
       (if name msg =? username then "text-cyan-400" else "text-emerald-400");
     senderLabel := if name msg =? username then "You" else name msg;
     bubbleOwn := name msg =? username;
     itemText := data msg;
     itemTime := timestamp msg |}.

Record View : Type := {
  headerUsername : string;
  (** the notices in the message area, in the order of the markup *)
  notices : list string;
  items : list MessageItem;
  inputValue : string;
  placeholder : string;
  inputDisabled : bool;
  sendDisabled : bool
}.

(** The markup [App] returns for the state of a render. *)
Definition render (s : AppState) : View :=
  {| headerUsername := username s;
     notices :=
       ((if negb (ablyScriptLoaded s) then ["Loading Ably..."] else []) ++
        (if ablyScriptLoaded s && (length (messages s) =? 0)%nat
         then ["No messages yet. Say hello!"] else []))%list;
     items := map (renderMessage (username s)) (messages s);
     inputValue := messageText s;
     placeholder :=
       if isNull (ably s) then "Connecting to chat..." else "Type your message...";
     inputDisabled := isNull (ably s);
     sendDisabled := isNull (ably s) || (trim (messageText s) =? "") |}.

(** *** Readings of an event sequence and of the log *)

(** The inbound messages of an event sequence that a component hears:
    those after the script has loaded (the effect has subscribed) and
    before the unmount. [subscribed] says whether the subscription exists
    at the start. *)
Fixpoint heard (subscribed : bool) (events : list Event) : list AblyMessage :=
  match events with
  | [] => []
  | Unmount :: _ => []
  | ScriptLoaded :: rest => heard true rest
  | Inbound msg :: rest =>
      if subscribed then msg :: heard subscribed rest else heard subscribed rest
  | _ :: rest => heard subscribed rest
  end.

(** The calls that set the session up. *)
Definition isSetup (e : Effect) : bool :=
  match e with
  | NewRealtime _ | ChannelsGet _ _ | Subscribe _ => true
  | _ => false
  end.

Definition isScriptTag (e : Effect) : bool :=
  match e with
  | AppendScript _ | RemoveScript _ => true
  | _ => false
  end.

Definition isTransportEvent (ev : Event) : bool :=
  match ev with
  | Transport _ => true
  | _ => false
  end.

Definition isScriptLoaded (ev : Event) : bool :=
  match ev with
  | ScriptLoaded => true
  | _ => false
  end.

Definition isConsoleError (e : Effect) : bool :=
  match e with
  | ConsoleError _ => true
  | _ => false
  end.

Definition isScriptError (ev : Event) : bool :=
  match ev with
  | ScriptError => true
  | _ => false
  end.

Definition isUnmount (ev : Event) : bool :=
  match ev with
  | Unmount => true
  | _ => false
  end.

(** The one client and the one channel of the component. *)
Definition theClient : AblyClient := Realtime "/api/ably-token".
Definition theChannel : AblyChannel := ChannelOf theClient "amana-chat".

(** A call of the log is in order for the component whose user name was
    drawn as [random10000]: a publish goes to the chat channel under that
    name with a text that is not blank; a close goes to the one client. *)
Definition callInOrder (random10000 : N) (e : Effect) : Prop :=
  match e with
  | Publish ch sender text =>
      ch = theChannel /\ sender = "user-" ++ decimal random10000 /\
      trim text <> ""
  | Close c => c = theClient
  | _ => True
  end.

(** Typing needs the client: while [ably] is null the text is empty. *)
Definition typedAfterClient (w : World) : Prop :=
  ably (app w) = None -> messageText (app w) = "".

(** What holds of the component whose user name was drawn as
    [random10000], whatever has happened to it: the name is the one of the
    first render; before the script has loaded nothing is set up, typed or
    received; afterwards the one client and the one channel are in place,
    set up once; every call of the log is in order; the script tag is in
    the page while the component is mounted. *)
Definition settled (random10000 : N) (w : World) : Prop :=
  username (app w) = "user-" ++ decimal random10000 /\
  (if ablyScriptLoaded (app w)
   then ably (app w) = Some theClient /\ channel (app w) = Some theChannel /\
        session w = Some theClient /\
        filter isSetup (log w) =
          [NewRealtime "/api/ably-token"; ChannelsGet theClient "amana-chat";
           Subscribe theChannel]
   else ably (app w) = None /\ channel (app w) = None /\ session w = None /\
        filter isSetup (log w) = [] /\
        messageText (app w) = "" /\ messages (app w) = [] /\
        filter isPublish (log w) = [] /\ conn w = Idle) /\
  Forall (callInOrder random10000) (log w) /\
  filter isScriptTag (log w) =
    (if mounted w then [AppendScript cdn]
     else [AppendScript cdn; RemoveScript cdn]).

(** The pages on the screen while an event is handled and once it is
    done, in order. A load of the script puts two pages up: React first
    commits the render that [setAblyScriptLoaded(true)] asked for, in
    which [ably] and [channel] are still null; the connecting effect runs
    after that commit, and the render its [setAbly] and [setChannel] ask
    for comes second. Any other event leaves the one page of the state it
    ends in; an unmounted component shows nothing. *)
Definition shown (ev : Event) (w : World) : list View :=
  if negb (mounted w) then []
  else
    match ev with
    | ScriptLoaded =>
        if ablyScriptLoaded (app w) then [render (app w)]
        else [render (setAblyScriptLoaded true (app w));
              render (app (step ev w))]
    | Unmount => []
    | _ => [render (app (step ev w))]
    end.

Fixpoint pages (events : list Event) (w : World) : list View :=
  match events with
  | [] => []
  | ev :: rest => (shown ev w ++ pages rest (step ev w))%list
  end.

(** Every page of the life of a component, from the first render on. *)
Definition screen (events : list Event) (random10000 : N) : list View :=
  render (initialState random10000) :: pages events (init random10000).

(** The three pages there are. *)
Definition loadingPage (v : View) : Prop :=
  notices v = ["Loading Ably..."] /\ items v = [] /\
  inputDisabled v = true /\ placeholder v = "Connecting to chat..." /\
  sendDisabled v = true.

Definition connectingPage (v : View) : Prop :=
  notices v = ["No messages yet. Say hello!"] /\ items v = [] /\
  inputDisabled v = true /\ placeholder v = "Connecting to chat..." /\
  sendDisabled v = true.

Definition readyPage (v : View) : Prop :=
  inputDisabled v = false /\ placeholder v = "Type your message..." /\
  notices v = (match items v with
               | [] => ["No messages yet. Say hello!"]
               | _ :: _ => []
               end).

(** Two worlds that differ in the state of the connection at most. *)
Definition sameButConn (w w' : World) : Prop :=
  app w = app w' /\ mounted w = mounted w' /\ session w = session w' /\
  log w = log w'.

End ChatView.

(** * Properties *)

(** ** Strings *)

Module StringFacts.
Import JS.

Lemma allDigits_string_of_uint (d : uint) :
  allDigits (NilEmpty.string_of_uint d) = true.
Proof.
  induction d; simpl; auto.
Qed.

Lemma decimal_allDigits (n : N) : allDigits (decimal n) = true.
Proof. apply allDigits_string_of_uint. Qed.

Lemma string_of_uint_empty (d : uint) :
  NilEmpty.string_of_uint d = EmptyString -> d = Nil.
Proof. destruct d; simpl; intros H; try discriminate; reflexivity. Qed.

Lemma decimal_nonempty (n : N) : decimal n <> EmptyString.
Proof.
  unfold decimal. intros H. apply string_of_uint_empty in H.
  destruct n as [|p]; simpl in H.
  - discriminate.
  - now apply Unsigned.to_uint_nonnil in H.
Qed.

Lemma matchesPrefixDigits_append (pre digits : string) :
  digits <> EmptyString -> allDigits digits = true ->
  matchesPrefixDigits pre (pre ++ digits) = true.
Proof.
  intros Hne Hd. induction pre as [|c pre IH]; simpl.
  - destruct digits; [congruence | exact Hd].
  - rewrite Ascii.eqb_refl. exact IH.
Qed.

Lemma clientId_matches (pre : string) (n : N) :
  matchesPrefixDigits pre (pre ++ decimal n) = true.
Proof.
  apply matchesPrefixDigits_append.
  - apply decimal_nonempty.
  - apply decimal_allDigits.
Qed.

(** Trimming leaves nothing exactly when every code unit is white space. *)
Lemma trimEnd_empty (s : string) :
  trimEnd s = EmptyString <-> blank s = true.
Proof.
  induction s as [|c s IH]; simpl.
  - tauto.
  - destruct (trimEnd s) eqn:E.
    + destruct (isWhiteSpace c); simpl.
      * rewrite <- IH. tauto.
      * split; discriminate.
    + split; [discriminate|].
      intros H. apply andb_true_iff in H. destruct H as [_ H].
      apply IH in H. discriminate.
Qed.

Lemma trimStart_blank (s : string) : blank (trimStart s) = blank s.
Proof.
  induction s as [|c s IH]; simpl; [reflexivity|].
  destruct (isWhiteSpace c) eqn:E; simpl.
  - exact IH.
  - rewrite E. reflexivity.
Qed.

Lemma trim_empty (s : string) : trim s = EmptyString <-> blank s = true.
Proof.
  unfold trim. rewrite trimEnd_empty, trimStart_blank. tauto.
Qed.

End StringFacts.

(** ** The token route *)

Module RouteFacts.
Import JS Route RouteTrace StringFacts.

(** The bodies of the two error responses, spelled out: an object with
    the one member [error]. *)
Lemma error_bodies_spelled :
  error_body "ABLY_API_KEY not set" =
    "{" ++ String dquote ("error" ++ String dquote (":" ++
      String dquote ("ABLY_API_KEY not set" ++ String dquote "}")))
  /\
  error_body "Failed to create token" =
    "{" ++ String dquote ("error" ++ String dquote (":" ++
      String dquote ("Failed to create token" ++ String dquote "}"))).
Proof. split; reflexivity. Qed.

(** The handler run from any trace: the calls of one request are added
    behind the calls already made. *)
Lemma GET_trace (env : Env) (ably : Ably) (rnd : N) (t : list IO) :
  GET env ably rnd t =
  (fst (serve env ably rnd), (t ++ snd (serve env ably rnd))%list).
Proof.
  unfold serve, GET.
  destruct (truthy (ABLY_API_KEY env)); simpl.
  - unfold try_catch, bind, call, ret, console_error; simpl.
    destruct (Rest ably (ABLY_API_KEY env)) as [client|e]; simpl.
    + destruct (createTokenRequest ably client _) as [tok|e]; simpl;
        rewrite <- ?app_assoc; reflexivity.
    + rewrite <- ?app_assoc. reflexivity.
  - unfold ret. simpl. rewrite app_nil_r. reflexivity.
Qed.

(** With a falsy key (unset or empty) the handler answers at once. *)
Lemma GET_falsy_key (env : Env) (ably : Ably) (rnd : N) :
  truthy (ABLY_API_KEY env) = false ->
  serve env ably rnd =
  (Normal {| status := 500;
             body := error_body "ABLY_API_KEY not set";
             headers := [] |}, []).
Proof.
  intros H. unfold serve, GET. rewrite H. reflexivity.
Qed.

(** C2. While [ABLY_API_KEY] is unset, every request is answered with
    status 500 (body [{error: ABLY_API_KEY not set}]) and the handler makes
    no call at all to the Ably library: neither the REST constructor nor
    [createTokenRequest] appears in the trace. *)
Theorem GET_unset_key_500_no_upstream (env : Env) (ably : Ably) (rnd : N) :
  ABLY_API_KEY env = None ->
  exists resp,
    serve env ably rnd = (Normal resp, []) /\
    status resp = 500%Z /\
    body resp = error_body "ABLY_API_KEY not set" /\
    upstreamCalls (snd (serve env ably rnd)) = [].
Proof.
  intros H.
  assert (F : truthy (ABLY_API_KEY env) = false) by (rewrite H; reflexivity).
  rewrite (GET_falsy_key env ably rnd F).
  eexists; repeat split.
Qed.

Lemma GET_unset_key_witness :
  ABLY_API_KEY {| ABLY_API_KEY := None |} = None /\
  exists resp,
    serve {| ABLY_API_KEY := None |} signerDouble 42 = (Normal resp, []) /\
    status resp = 500%Z /\
    body resp = error_body "ABLY_API_KEY not set" /\
    upstreamCalls (snd (serve {| ABLY_API_KEY := None |} signerDouble 42)) = [].
Proof.
  split; [reflexivity|].
  apply (GET_unset_key_500_no_upstream {| ABLY_API_KEY := None |} signerDouble 42).
  reflexivity.
Defined.

(** The handler when the library throws, with the calls it made. *)
Lemma GET_upstream_throws (env : Env) (ably : Ably) (rnd : N) (e : Error) :
  truthy (ABLY_API_KEY env) = true ->
  upstreamOutcome env ably rnd = Throw e ->
  exists calls,
    serve env ably rnd =
    (Normal {| status := 500;
               body := error_body "Failed to create token";
               headers := [] |},
     (calls ++ [ConsoleError "Ably token error:" e])%list) /\
    forallb isUpstream calls = true.
Proof.
  intros Hk Hu. unfold serve, GET, upstreamOutcome in *. rewrite Hk.
  unfold try_catch, bind, call, ret, console_error. simpl in *.
  destruct (Rest ably (ABLY_API_KEY env)) as [client|e0]; simpl in *.
  - rewrite Hu. simpl.
    exists [NewRest (ABLY_API_KEY env);
            CreateTokenRequest client ("amana-chat-user-" ++ decimal rnd)].
    split; reflexivity.
  - inversion Hu; subst.
    exists [NewRest (ABLY_API_KEY env)]. split; reflexivity.
Qed.

(** The handler when the library answers. *)
Lemma GET_upstream_answers (env : Env) (ably : Ably) (rnd : N) (tok : json) :
  truthy (ABLY_API_KEY env) = true ->
  upstreamOutcome env ably rnd = Normal tok ->
  exists client,
    Rest ably (ABLY_API_KEY env) = Normal client /\
    serve env ably rnd =
    (Normal {| status := 200;
               body := stringify tok;
               headers := [("Content-Type", "application/json")] |},
     [NewRest (ABLY_API_KEY env);
      CreateTokenRequest client ("amana-chat-user-" ++ decimal rnd)]).
Proof.
  intros Hk Hu. unfold serve, GET, upstreamOutcome in *. rewrite Hk.
  unfold try_catch, bind, call, ret. simpl in *.
  destruct (Rest ably (ABLY_API_KEY env)) as [client|e0]; [|discriminate].
  exists client. split; [reflexivity|]. simpl in *. rewrite Hu. reflexivity.
Qed.

(** The handler always returns a response. *)
Lemma GET_returns (env : Env) (ably : Ably) (rnd : N) :
  exists resp, fst (serve env ably rnd) = Normal resp.
Proof.
  destruct (truthy (ABLY_API_KEY env)) eqn:Hk.
  - destruct (upstreamOutcome env ably rnd) as [tok|e] eqn:Hu.
    + destruct (GET_upstream_answers env ably rnd tok Hk Hu) as (c & _ & ->).
      eexists; reflexivity.
    + destruct (GET_upstream_throws env ably rnd e Hk Hu) as (calls & -> & _).
      eexists; reflexivity.
  - rewrite (GET_falsy_key env ably rnd Hk). eexists; reflexivity.
Qed.

(** C3. No request ends in an exception: the handler always returns a
    response. When a key is configured and the library throws or rejects
    with [e] (in the constructor or in [createTokenRequest]), the response
    has status 500 and the fixed body [{error: Failed to create token}],
    the same for every [e]; the error goes to [console.error] only, as the
    last call of the request. *)
Theorem GET_catches_upstream_failure (env : Env) (ably : Ably) (rnd : N) :
  (exists resp, fst (serve env ably rnd) = Normal resp) /\
  (forall e : Error,
      truthy (ABLY_API_KEY env) = true ->
      upstreamOutcome env ably rnd = Throw e ->
      fst (serve env ably rnd) =
        Normal {| status := 500;
                  body := error_body "Failed to create token";
                  headers := [] |} /\
      last (snd (serve env ably rnd)) (NewRest None) =
        ConsoleError "Ably token error:" e).
Proof.
  split; [apply GET_returns|].
  intros e Hk Hu.
  destruct (GET_upstream_throws env ably rnd e Hk Hu) as (calls & -> & _).
  simpl. split; [reflexivity|]. apply last_last.
Qed.

Lemma GET_catches_upstream_failure_witness :
  truthy (ABLY_API_KEY {| ABLY_API_KEY := Some "appid.keyid:sk_test_123" |}) = true /\
  upstreamOutcome {| ABLY_API_KEY := Some "appid.keyid:sk_test_123" |}
                  (failingDouble (mkError "ECONNRESET 10.0.0.7")) 42
    = Throw (mkError "ECONNRESET 10.0.0.7") /\
  fst (serve {| ABLY_API_KEY := Some "appid.keyid:sk_test_123" |}
             (failingDouble (mkError "ECONNRESET 10.0.0.7")) 42) =
    Normal {| status := 500;
              body := error_body "Failed to create token";
              headers := [] |} /\
  includes "ECONNRESET"
    (error_body "Failed to create token") = false.
Proof.
  split; [reflexivity|]. split; [reflexivity|].
  split; [|reflexivity].
  apply (proj2 (GET_catches_upstream_failure
                  {| ABLY_API_KEY := Some "appid.keyid:sk_test_123" |}
                  (failingDouble (mkError "ECONNRESET 10.0.0.7")) 42)
               (mkError "ECONNRESET 10.0.0.7")); reflexivity.
Defined.




(** C9. When a key is configured and the library answers, the response has
    status 200, and the identity the handler asked the token for is the
    fixed prefix [amana-chat-user-] followed by the decimal digits of the
    random draw: it matches [amana-chat-user-\d+]. *)
Theorem GET_success_200_identity
  (env : Env) (ably : Ably) (rnd : N) (tok : json) :
  truthy (ABLY_API_KEY env) = true ->
  upstreamOutcome env ably rnd = Normal tok ->
  exists resp client clientId,
    serve env ably rnd =
      (Normal resp,
       [NewRest (ABLY_API_KEY env); CreateTokenRequest client clientId]) /\
    status resp = 200%Z /\
    clientId = "amana-chat-user-" ++ decimal rnd /\
    allDigits (decimal rnd) = true /\
    matchesPrefixDigits "amana-chat-user-" clientId = true.
Proof.
  intros Hk Hu.
  destruct (GET_upstream_answers env ably rnd tok Hk Hu) as (c & _ & ->).
  eexists; exists c; eexists. split; [reflexivity|]. simpl.
  split; [reflexivity|]. split; [reflexivity|].
  split; [apply decimal_allDigits|].
  apply (clientId_matches "amana-chat-user-" rnd).
Qed.

Lemma GET_success_200_identity_witness :
  let env := {| ABLY_API_KEY := Some "sk_test_123" |} in
  (truthy (ABLY_API_KEY env) = true /\
   upstreamOutcome env signerDouble 4711 =
     Normal (JObj [("keyName", JStr "appid.keyid");
                   ("clientId", JStr "amana-chat-user-4711");
                   ("ttl", JNum 3600000);
                   ("mac", JStr "c2lnbmF0dXJl")])) /\
  exists resp client clientId,
    serve env signerDouble 4711 =
      (Normal resp,
       [NewRest (ABLY_API_KEY env); CreateTokenRequest client clientId]) /\
    status resp = 200%Z /\
    clientId = "amana-chat-user-" ++ decimal 4711 /\
    allDigits (decimal 4711) = true /\
    matchesPrefixDigits "amana-chat-user-" clientId = true.
Proof.
  split; [split; reflexivity|].
  apply (GET_success_200_identity
           {| ABLY_API_KEY := Some "sk_test_123" |} signerDouble 4711 _
           eq_refl eq_refl).
Defined.

End RouteFacts.

(** ** The chat component *)

Module ChatFacts.
Import JS Chat StringFacts.

(** *** The submit handler, case by case *)

Lemma handleSendMessage_blank (s : AppState) (t : list Effect) :
  trim (messageText s) = "" ->
  handleSendMessage s t = (Normal s, (t ++ [PreventDefault])%list).
Proof.
  intros H. unfold handleSendMessage, bind, call, ret. simpl.
  rewrite H. reflexivity.
Qed.

Lemma handleSendMessage_no_channel (s : AppState) (t : list Effect) :
  channel s = None ->
  handleSendMessage s t = (Normal s, (t ++ [PreventDefault])%list).
Proof.
  intros H. unfold handleSendMessage, bind, call, ret. simpl.
  rewrite H. destruct (trim (messageText s) =? ""); reflexivity.
Qed.

Lemma handleSendMessage_publish (s : AppState) (t : list Effect) (ch : AblyChannel) :
  trim (messageText s) <> "" ->
  channel s = Some ch ->
  handleSendMessage s t =
  (Normal (setMessageText "" s),
   (t ++ [PreventDefault; Publish ch (username s) (messageText s)])%list).
Proof.
  intros Ht Hc. unfold handleSendMessage, bind, call, ret. simpl.
  apply String.eqb_neq in Ht. rewrite Ht, Hc. simpl.
  rewrite <- app_assoc. reflexivity.
Qed.

(** The handler either drops the submit or publishes it. *)
Lemma handleSendMessage_cases (s : AppState) (t : list Effect) :
  (handleSendMessage s t = (Normal s, (t ++ [PreventDefault])%list) /\
   (trim (messageText s) = "" \/ channel s = None))
  \/
  (exists ch,
      trim (messageText s) <> "" /\ channel s = Some ch /\
      handleSendMessage s t =
      (Normal (setMessageText "" s),
       (t ++ [PreventDefault; Publish ch (username s) (messageText s)])%list)).
Proof.
  destruct (String.eqb_spec (trim (messageText s)) "") as [Hb|Hb].
  - left. split; [now apply handleSendMessage_blank | now left].
  - destruct (channel s) as [ch|] eqn:Hc.
    + right. exists ch. repeat split; auto.
      now apply handleSendMessage_publish.
    + left. split; [now apply handleSendMessage_no_channel | now right].
Qed.

(** C7. When the text is empty after trimming, the handler stops after
    [e.preventDefault()]: it returns with every state cell as it was and
    calls nothing on the channel. In the session, such a submit changes
    neither the component state nor the connection, and the log of calls
    gains no publish. *)
Theorem handleSendMessage_ignores_blank (s : AppState) (t : list Effect) :
  trim (messageText s) = "" ->
  handleSendMessage s t = (Normal s, (t ++ [PreventDefault])%list) /\
  published (send s) = false /\
  (forall (m : bool) (c : option AblyClient) (k : ConnectionState),
      let w := {| app := s; mounted := m; session := c; conn := k; log := t |} in
      app (step Submit w) = s /\ conn (step Submit w) = k /\
      session (step Submit w) = c /\
      filter isPublish (log (step Submit w)) = filter isPublish t).
Proof.
  intros H. split; [now apply handleSendMessage_blank|].
  split.
  - unfold published, send. rewrite (handleSendMessage_blank s [] H). reflexivity.
  - intros m c k w. unfold step, w. destruct m; simpl.
    + rewrite (handleSendMessage_blank s t H). unfold commit; simpl.
      repeat split; auto.
      rewrite filter_app. simpl. apply app_nil_r.
    + repeat split; auto.
Qed.

Lemma handleSendMessage_ignores_blank_witness :
  let s := setMessageText (String (ascii_of_N 32) (String (ascii_of_N 9) " "))
             (app (run [ScriptLoaded] (init 7))) in
  trim (messageText s) = "" /\
  channel s = Some (ChannelOf (Realtime "/api/ably-token") "amana-chat") /\
  handleSendMessage s [] = (Normal s, [PreventDefault]) /\
  published (send s) = false.
Proof.
  split; [reflexivity|]. split; [reflexivity|].
  pose proof (handleSendMessage_ignores_blank
    (setMessageText (String (ascii_of_N 32) (String (ascii_of_N 9) " "))
             (app (run [ScriptLoaded] (init 7)))) [] eq_refl) as H.
  split; [exact (proj1 H) | exact (proj1 (proj2 H))].
Defined.

(** C10. For every state the handler returns, and it publishes exactly
    when the trimmed text is non-empty and the channel is non-null. When it
    publishes, it publishes once, after [preventDefault], with the user name
    and the untrimmed text, and [messageText] becomes empty; when it does not,
    every state cell, [messageText] included, stays as it was and the call
    to [preventDefault] is all that happened. A non-blank submit with a null
    channel is therefore dropped without a trace: the handler returns
    normally and the text is kept. *)
Theorem handleSendMessage_clears_iff_published (s : AppState) :
  exists s',
    fst (send s) = Normal s' /\
    (published (send s) = true <->
     trim (messageText s) <> "" /\ channel s <> None) /\
    (published (send s) = true ->
     messageText s' = "" /\
     exists ch, channel s = Some ch /\
       snd (send s) = [PreventDefault; Publish ch (username s) (messageText s)]) /\
    (published (send s) = false ->
     s' = s /\ snd (send s) = [PreventDefault]).
Proof.
  unfold published, send.
  destruct (handleSendMessage_cases s []) as [[E Hwhy]|(ch & Ht & Hc & E)];
    rewrite E; simpl.
  - exists s. split; [reflexivity|]. split.
    + split; [discriminate|]. intros [H1 H2]. destruct Hwhy; contradiction.
    + split; [discriminate|]. intros _. split; reflexivity.
  - exists (setMessageText "" s). split; [reflexivity|]. split.
    + split; [|reflexivity]. intros _. split; [exact Ht|]. rewrite Hc. discriminate.
    + split; [|discriminate]. intros _. split; [reflexivity|].
      exists ch. split; [exact Hc | reflexivity].
Qed.

(** The two sides of it on a text that was typed: before the channel
    exists the submit is dropped and the text stays; once it exists the
    submit is published and the text is cleared. *)
Example send_before_channel :
  let early := setMessageText "hello" (initialState 7) in
  channel early = None /\ send early = (Normal early, [PreventDefault]).
Proof. split; reflexivity. Qed.

Example send_with_channel :
  let ready := setMessageText "hello" (app (run [ScriptLoaded] (init 7))) in
  send ready =
  (Normal (setMessageText "" ready),
   [PreventDefault;
    Publish (ChannelOf (Realtime "/api/ably-token") "amana-chat") "user-7" "hello"]).
Proof. reflexivity. Qed.

(** *** The message log *)

Lemma deliver_messages (events : list AblyMessage) (s : AppState) :
  messages (deliver events s) = (messages s ++ events)%list.
Proof.
  unfold deliver. revert s.
  induction events as [|e events IH]; intros s; simpl.
  - symmetry. apply app_nil_r.
  - rewrite IH. simpl. rewrite <- app_assoc. reflexivity.
Qed.

Lemma handleSendMessage_messages (s : AppState) (t : list Effect) :
  exists s', fst (handleSendMessage s t) = Normal s' /\ messages s' = messages s.
Proof.
  destruct (handleSendMessage_cases s t) as [[E _]|(ch & _ & _ & E)]; rewrite E;
    eexists; split; reflexivity.
Qed.

(** What one event does to the log of messages: an inbound message goes to
    its end, if the subscription is there to hear it; nothing else touches
    it. *)
Lemma step_messages (ev : Event) (w : World) :
  messages (app (step ev w)) = messages (app w) \/
  exists msg, ev = Inbound msg /\
    messages (app (step ev w)) = (messages (app w) ++ [msg])%list.
Proof.
  unfold step. destruct (mounted w); simpl; [|destruct ev; now left].
  destruct ev; simpl.
  - destruct (ablyScriptLoaded (app w)); [now left|].
    unfold connectEffect, bind, call, ret; simpl. now left.
  - now left.
  - now left.
  - destruct (session w); [|now left]. right. exists msg. split; reflexivity.
  - destruct (ably (app w)); now left.
  - left. unfold commit; simpl.
    destruct (handleSendMessage_messages (app w) (log w)) as (s' & -> & E). exact E.
  - left. unfold stop, removeScript; simpl. destruct (session w); reflexivity.
Qed.

Lemma step_messages_extends (ev : Event) (w : World) :
  exists tail, messages (app (step ev w)) = (messages (app w) ++ tail)%list.
Proof.
  destruct (step_messages ev w) as [E|(msg & _ & E)]; rewrite E.
  - exists []. symmetry. apply app_nil_r.
  - now exists [msg].
Qed.

Lemma run_messages_extends (events : list Event) (w : World) :
  exists tail, messages (app (run events w)) = (messages (app w) ++ tail)%list.
Proof.
  unfold run. revert w. induction events as [|ev events IH]; intros w; simpl.
  - exists []. symmetry. apply app_nil_r.
  - destruct (IH (step ev w)) as (tail2 & E2).
    destruct (step_messages_extends ev w) as (tail1 & E1).
    exists (tail1 ++ tail2)%list. rewrite E2, E1, app_assoc. reflexivity.
Qed.

Lemma stop_app (w : World) : app (snd (stop w)) = app w.
Proof. unfold stop. destruct (session w); reflexivity. Qed.

(** Inbound events heard by a mounted, subscribed component. *)
Lemma run_inbound (events : list AblyMessage) (w : World) :
  mounted w = true -> session w <> None ->
  messages (app (run (map Inbound events) w)) = (messages (app w) ++ events)%list /\
  log (run (map Inbound events) w) = log w.
Proof.
  unfold run. revert w. induction events as [|e events IH]; intros w Hm Hs; simpl.
  - split; [symmetry; apply app_nil_r | reflexivity].
  - destruct (session w) as [c|] eqn:Hc; [|congruence].
    assert (E : step (Inbound e) w =
                commit w (Normal (onMessage e (app w)), log w)).
    { unfold step. rewrite Hm, Hc. reflexivity. }
    rewrite E. destruct (IH (commit w (Normal (onMessage e (app w)), log w)))
      as [IHm IHl].
    + exact Hm.
    + simpl. rewrite Hc. discriminate.
    + rewrite IHm, IHl. simpl. rewrite <- app_assoc. split; reflexivity.
Qed.

(** C5. The subscription callback puts each inbound message at the end of
    [messages]: a batch delivered in some order is found, in that order,
    behind what was there before; in particular three events [e1], [e2],
    [e3] heard by the mounted, subscribed component end up as
    [... e1 e2 e3]. No event of the component's life and no teardown removes
    or reorders an entry: after any sequence of events the old log is a
    prefix of the new one. *)
Theorem messages_append_only :
  (forall (events : list AblyMessage) (s : AppState),
      messages (deliver events s) = (messages s ++ events)%list) /\
  (forall (e1 e2 e3 : AblyMessage) (w : World),
      mounted w = true -> session w <> None ->
      messages (app (run [Inbound e1; Inbound e2; Inbound e3] w)) =
      (messages (app w) ++ [e1; e2; e3])%list) /\
  (forall (events : list Event) (w : World),
      exists tail,
        messages (app (run events w)) = (messages (app w) ++ tail)%list) /\
  (forall w : World, messages (app (snd (stop w))) = messages (app w)).
Proof.
  split; [exact deliver_messages|].
  split.
  - intros e1 e2 e3 w Hm Hs.
    exact (proj1 (run_inbound [e1; e2; e3] w Hm Hs)).
  - split; [exact run_messages_extends|].
    intros w. now rewrite stop_app.
Qed.

(** C6. The submit handler leaves [messages] alone, whatever it does with
    the text: it returns a state with the same log, published or not. Over
    the whole life of the component the log changes in one place only: the
    step of an inbound message, which adds that message at the end; every
    other event, a submit included, leaves it as it was. *)
Theorem publish_leaves_messages :
  (forall (s : AppState) (t : list Effect),
      exists s',
        fst (handleSendMessage s t) = Normal s' /\ messages s' = messages s) /\
  (forall w : World,
      messages (app (step Submit w)) = messages (app w)) /\
  (forall (ev : Event) (w : World),
      messages (app (step ev w)) = messages (app w) \/
      exists msg, ev = Inbound msg /\
        messages (app (step ev w)) = (messages (app w) ++ [msg])%list).
Proof.
  split; [exact handleSendMessage_messages|].
  split; [|exact step_messages].
  intros w. destruct (step_messages Submit w) as [E|(msg & Hev & _)].
  - exact E.
  - discriminate.
Qed.

(** A submit is echoed into the log only when the transport brings it
    back. *)
Example publish_then_echo :
  let w := run [ScriptLoaded; Transport TConnected; Change "hello"; Submit] (init 7) in
  let echo := {| id := "m1"; name := "user-7"; data := "hello"; timestamp := 1 |} in
  messages (app w) = [] /\
  filter isPublish (log w) =
    [Publish (ChannelOf (Realtime "/api/ably-token") "amana-chat") "user-7" "hello"] /\
  messages (app (step (Inbound echo) w)) = [echo].
Proof. repeat split. Qed.

Lemma messages_append_only_witness :
  let w := run [ScriptLoaded] (init 7) in
  let e1 := {| id := "a"; name := "user-1"; data := "one"; timestamp := 1 |} in
  let e2 := {| id := "b"; name := "user-2"; data := "two"; timestamp := 2 |} in
  let e3 := {| id := "c"; name := "user-1"; data := "three"; timestamp := 3 |} in
  (mounted w = true /\ session w <> None) /\
  messages (app (run [Inbound e1; Inbound e2; Inbound e3] w)) =
    (messages (app w) ++ [e1; e2; e3])%list.
Proof.
  split; [split; [reflexivity | discriminate]|].
  apply (proj1 (proj2 messages_append_only)); [reflexivity | discriminate].
Defined.

(** *** The session: what holds after any sequence of events *)

Section Invariants.

Variable P : World -> Prop.
Hypothesis preserved : forall ev w, P w -> P (step ev w).

Lemma run_invariant (events : list Event) (w : World) :
  P w -> P (run events w).
Proof.
  unfold run. revert w.
  induction events as [|ev events IH]; intros w Hw; simpl; auto.
Qed.

End Invariants.

(** The handler touches no cell but [messageText]. *)
Lemma handleSendMessage_frame (s : AppState) (t : list Effect) :
  exists s', fst (handleSendMessage s t) = Normal s' /\
    ably s' = ably s /\ channel s' = channel s /\
    ablyScriptLoaded s' = ablyScriptLoaded s /\ username s' = username s.
Proof.
  destruct (handleSendMessage_cases s t) as [[E _]|(ch & _ & _ & E)]; rewrite E;
    eexists; repeat split.
Qed.

Lemma transport_not_idle (t : TransportEvent) (c : ConnectionState) :
  c <> Idle -> transport t c <> Idle.
Proof. destruct t, c; simpl; congruence. Qed.

Lemma transport_idle (t : TransportEvent) : transport t Idle = Idle.
Proof. destruct t; reflexivity. Qed.

Lemma wired_init (rnd : N) : wired (init rnd).
Proof. left. repeat split. Qed.

Lemma transport_closed (t : TransportEvent) (c : ConnectionState) :
  transport t c = Closed -> c = Closed.
Proof. destruct t, c; simpl; congruence. Qed.

Lemma step_submit_mounted (w : World) :
  mounted w = true ->
  step Submit w = commit w (handleSendMessage (app w) (log w)).
Proof. intros Em. unfold step. rewrite Em. reflexivity. Qed.

Lemma mounted_step (ev : Event) (w : World) :
  mounted (step ev w) =
  mounted w && match ev with Unmount => false | _ => true end.
Proof.
  unfold step. destruct (mounted w) eqn:Em; simpl.
  - destruct ev; simpl; try reflexivity.
    + destruct (ablyScriptLoaded (app w)); [exact Em | reflexivity].
    + exact Em.
    + destruct (session w); [|exact Em]. unfold commit; simpl. exact Em.
    + destruct (ably (app w)); [|exact Em]. unfold commit; simpl. exact Em.
    + unfold commit; simpl. exact Em.
  - destruct ev; simpl; exact Em.
Qed.

Lemma wired_step (ev : Event) (w : World) : wired w -> wired (step ev w).
Proof.
  intros Hw. unfold step. destruct (mounted w); simpl;
    [|destruct ev; exact Hw].
  destruct ev.
  - destruct Hw as [(Hc & Hs & Ha & Hch & Hl)|(Hc & Hs & Ha & Hch & Hl)];
      rewrite Hl.
    + unfold connectEffect, bind, call, ret; simpl.
      right. simpl. repeat split; discriminate.
    + right. repeat split; auto.
  - exact Hw.
  - destruct Hw as [(Hc & Hs & Ha & Hch & Hl)|(Hc & Hs & Ha & Hch & Hl)].
    + left. simpl. rewrite Hc, transport_idle. repeat split; auto.
    + right. simpl. repeat split; auto. now apply transport_not_idle.
  - destruct (session w) eqn:Hs'; [|exact Hw].
    unfold commit; simpl. unfold wired in *; simpl. exact Hw.
  - destruct (ably (app w)) eqn:Ha'; [|exact Hw].
    unfold commit; simpl. unfold wired in *; simpl. exact Hw.
  - unfold commit.
    destruct (handleSendMessage_frame (app w) (log w))
      as (s' & E & Ea & Ech & El & _).
    rewrite E. unfold wired in *; simpl. rewrite Ea, Ech, El. exact Hw.
  - unfold stop, removeScript; simpl.
    destruct Hw as [(Hc & Hs & Ha & Hch & Hl)|(Hc & Hs & Ha & Hch & Hl)].
    + rewrite Hs. simpl. left. repeat split; auto.
    + destruct (session w) eqn:Hs'; [|congruence]. simpl.
      right. simpl. repeat split; auto; discriminate.
Qed.

Lemma wired_run (events : list Event) (rnd : N) : wired (run events (init rnd)).
Proof. apply run_invariant; [exact wired_step | apply wired_init]. Qed.

(** The connection is closed by the unmount and by nothing else. *)
Lemma closed_only_unmounted (events : list Event) (rnd : N) :
  conn (run events (init rnd)) = Closed ->
  mounted (run events (init rnd)) = false.
Proof.
  apply (run_invariant (fun w => conn w = Closed -> mounted w = false)).
  - intros ev w Hw. rewrite mounted_step.
    destruct (mounted w) eqn:Em; [|reflexivity]. simpl.
    assert (Hopen : conn w <> Closed) by (intros H; apply Hw in H; discriminate).
    unfold step. rewrite Em. simpl.
    destruct ev; simpl; try reflexivity; try (intros H; contradiction).
    + destruct (ablyScriptLoaded (app w)); [intros H; contradiction|].
      unfold connectEffect, bind, call, ret; simpl. discriminate.
    + intros H. apply transport_closed in H. contradiction.
    + destruct (session w); simpl; intros H; contradiction.
    + destruct (ably (app w)); simpl; intros H; contradiction.
  - discriminate.
Qed.

(** C1, as the code has it. The handler has no [NotConnectedError]: what
    decides whether the transport is called is the channel handle and the
    trimmed text, never the state of the connection. With a null handle a
    submit, of a blank text or of any other, calls nothing but
    [preventDefault], returns and keeps the text; with a handle and a text
    that is not blank it publishes. In the session the handle is null
    exactly while the state is [Idle], so there a submit reaches no
    transport; in every other state a mounted component can be in
    ([Connecting], [Suspended] and [Failed] as much as [Connected]) a
    submit of a text that is not blank is published. [Closed] is reached
    by the unmount alone, after which no submit handler runs. *)
Theorem publish_gated_by_channel_handle :
  (forall (s : AppState) (t : list Effect),
      channel s = None ->
      handleSendMessage s t = (Normal s, (t ++ [PreventDefault])%list)) /\
  (forall (s : AppState) (t : list Effect) (ch : AblyChannel),
      channel s = Some ch -> trim (messageText s) <> "" ->
      handleSendMessage s t =
      (Normal (setMessageText "" s),
       (t ++ [PreventDefault; Publish ch (username s) (messageText s)])%list)) /\
  (forall (events : list Event) (rnd : N),
      let w := run events (init rnd) in
      (conn w = Idle <-> channel (app w) = None) /\
      (conn w = Idle ->
       app (step Submit w) = app w /\
       filter isPublish (log (step Submit w)) = filter isPublish (log w)) /\
      (mounted w = true -> conn w <> Idle ->
       trim (messageText (app w)) <> "" ->
       exists ch,
         channel (app w) = Some ch /\
         log (step Submit w) =
           (log w ++ [PreventDefault;
                      Publish ch (username (app w)) (messageText (app w))])%list) /\
      (conn w = Closed -> mounted w = false /\ step Submit w = w)).
Proof.
  split; [exact handleSendMessage_no_channel|].
  split; [intros s t ch Hc Ht; now apply handleSendMessage_publish|].
  intros events rnd w.
  assert (Hw : wired w) by apply wired_run.
  split; [|split; [|split]].
  - destruct Hw as [(Hi & _ & _ & Hch & _)|(Hn & _ & _ & Hch & _)];
      split; intros H; auto; contradiction.
  - intros Hi. destruct Hw as [(_ & _ & _ & Hch & _)|(Hn & _)]; [|contradiction].
    destruct (mounted w) eqn:Em.
    + rewrite (step_submit_mounted w Em),
        (handleSendMessage_no_channel (app w) (log w) Hch).
      unfold commit; simpl. split; [reflexivity|].
      rewrite filter_app. simpl. apply app_nil_r.
    + unfold step. rewrite Em. simpl. split; reflexivity.
  - intros Em Hn Ht. destruct Hw as [(Hi & _)|(_ & _ & _ & Hch & _)];
      [contradiction|].
    destruct (channel (app w)) as [ch|] eqn:E; [|congruence].
    exists ch. split; [reflexivity|].
    rewrite (step_submit_mounted w Em),
      (handleSendMessage_publish (app w) (log w) ch Ht E).
    reflexivity.
  - intros Hc. pose proof (closed_only_unmounted events rnd Hc) as Em.
    fold w in Em. split; [exact Em|].
    unfold step. rewrite Em. reflexivity.
Qed.

Lemma publish_gated_by_channel_handle_witness :
  let early := setMessageText "hello" (initialState 7) in
  let failed := run [ScriptLoaded; Transport TFailed; Change "hello"] (init 7) in
  (channel early = None /\ trim (messageText early) <> "" /\
   handleSendMessage early [] = (Normal early, [PreventDefault])) /\
  (mounted failed = true /\ conn failed = Failed /\
   exists ch,
     channel (app failed) = Some ch /\
     log (step Submit failed) =
       (log failed ++ [PreventDefault; Publish ch "user-7" "hello"])%list).
Proof.
  split.
  - split; [reflexivity|]. split; [discriminate|].
    apply (proj1 publish_gated_by_channel_handle
             (setMessageText "hello" (initialState 7)) []).
    reflexivity.
  - split; [reflexivity|]. split; [reflexivity|].
    apply (proj1 (proj2 (proj2
             (proj2 (proj2 publish_gated_by_channel_handle)
                [ScriptLoaded; Transport TFailed; Change "hello"] 7%N))));
      [reflexivity | discriminate | discriminate].
Defined.

(** C1 as the specification has it fails: right after the script has
    loaded the connection is still [Connecting], and a submit of [hello]
    returns normally and calls [publish] on the channel. *)
Lemma publish_while_connecting :
  let w := run [ScriptLoaded; Change "hello"] (init 7) in
  conn w = Connecting /\
  send (app w) =
    (Normal (setMessageText "" (app w)),
     [PreventDefault;
      Publish (ChannelOf (Realtime "/api/ably-token") "amana-chat")
              "user-7" "hello"]) /\
  published (send (app w)) = true.
Proof. repeat split. Qed.

(** *** Teardown *)



Lemma handleSendMessage_log (s : AppState) (t : list Effect) :
  filter isClose (snd (handleSendMessage s t)) = filter isClose t.
Proof.
  destruct (handleSendMessage_cases s t) as [[E _]|(ch & _ & _ & E)]; rewrite E;
    simpl; rewrite filter_app; simpl; apply app_nil_r.
Qed.

(** What one event does to the number of [close()] calls: the unmount of
    a mounted component with a session adds one, nothing else adds any. *)
Lemma closeCalls_step (ev : Event) (w : World) :
  closeCalls (step ev w) =
  closeCalls w +
  (if mounted w
   then match ev, session w with
        | Unmount, Some _ => 1
        | _, _ => 0
        end
   else 0).
Proof.
  unfold step. destruct (mounted w) eqn:Em; simpl.
  - destruct ev; simpl.
    + destruct (ablyScriptLoaded (app w)); [lia|].
      unfold connectEffect, bind, call, ret, closeCalls; simpl.
      rewrite <- !app_assoc, filter_app, length_app. simpl.
      destruct (session w); lia.
    + unfold onScriptError, commit, closeCalls; simpl.
      rewrite filter_app, length_app. simpl. destruct (session w); lia.
    + unfold closeCalls; simpl. destruct (session w); lia.
    + destruct (session w); unfold commit, closeCalls; simpl; lia.
    + destruct (ably (app w)); unfold commit, closeCalls; simpl;
        destruct (session w); lia.
    + unfold commit, closeCalls; simpl. rewrite handleSendMessage_log.
      destruct (session w); lia.
    + unfold stop, removeScript, closeCalls; simpl.
      destruct (session w); simpl; rewrite ?filter_app, ?length_app; simpl;
        rewrite ?filter_app, ?length_app; simpl; lia.
  - destruct ev; simpl; try lia.
    unfold onScriptError, commit, closeCalls; simpl.
    rewrite filter_app, length_app. simpl. lia.
Qed.




Lemma session_none_step (ev : Event) (w : World) :
  session (step ev w) = None -> session w = None.
Proof.
  unfold step. destruct (mounted w); simpl.
  - destruct ev; simpl; auto.
    + destruct (ablyScriptLoaded (app w)); [auto|].
      unfold connectEffect, bind, call, ret; simpl. discriminate.
    + destruct (session w) eqn:Es; simpl; [rewrite Es|]; auto.
    + destruct (ably (app w)); auto.
    + unfold stop, removeScript; simpl.
      destruct (session w) eqn:Es; simpl; rewrite ?Es; auto.
  - destruct ev; auto.
Qed.

Lemma no_session_no_close (events : list Event) (rnd : N) :
  session (run events (init rnd)) = None ->
  closeCalls (run events (init rnd)) = 0.
Proof.
  apply (run_invariant (fun w => session w = None -> closeCalls w = 0)).
  - intros ev w Hw Hs. apply session_none_step in Hs.
    rewrite closeCalls_step, (Hw Hs), Hs.
    destruct (mounted w), ev; reflexivity.
  - intros _. reflexivity.
Qed.





End ChatFacts.

(** * Further properties *)

(** ** Decimal identities *)

Module IdentityFacts.
Import JS StringFacts.

Lemma string_of_uint_inj (d d' : uint) :
  NilEmpty.string_of_uint d = NilEmpty.string_of_uint d' -> d = d'.
Proof.
  intros H.
  assert (E : NilEmpty.uint_of_string (NilEmpty.string_of_uint d) =
              NilEmpty.uint_of_string (NilEmpty.string_of_uint d'))
    by (rewrite H; reflexivity).
  rewrite !NilEmpty.usu in E. now inversion E.
Qed.

Lemma decimal_inj (n m : N) : decimal n = decimal m -> n = m.
Proof.
  unfold decimal. intros H. apply string_of_uint_inj in H.
  now apply DecimalN.Unsigned.to_uint_inj.
Qed.

Lemma append_inj_l (pre a b : string) : pre ++ a = pre ++ b -> a = b.
Proof.
  induction pre as [|c pre IH]; simpl; intros H; [exact H|].
  inversion H. auto.
Qed.

Lemma length_append (a b : string) :
  String.length (a ++ b) = String.length a + String.length b.
Proof. induction a as [|c a IH]; simpl; [reflexivity | now rewrite IH]. Qed.

(** Every draw below 10000 prints with one to four digits. *)
Lemma decimal_length_below_10000 (n : N) :
  (n < 10000)%N ->
  1 <= String.length (decimal n) <= 4.
Proof.
  intros Hn.
  assert (All : forallb
                  (fun k => let l := String.length (decimal (N.of_nat k)) in
                            ((1 <=? l) && (l <=? 4))%nat)
                  (seq 0 (N.to_nat 10000)) = true) by (vm_compute; reflexivity).
  rewrite forallb_forall in All.
  specialize (All (N.to_nat n)).
  rewrite N2Nat.id in All.
  assert (Hin : In (N.to_nat n) (seq 0 (N.to_nat 10000))) by (apply in_seq; lia).
  apply All in Hin. cbv zeta in Hin.
  apply andb_true_iff in Hin. destruct Hin as [H1 H2].
  apply Nat.leb_le in H1. apply Nat.leb_le in H2. lia.
Qed.

End IdentityFacts.

(** ** The token route, further *)

Module RouteMore.
Import JS Route RouteTrace StringFacts RouteFacts IdentityFacts.

Lemma truthy_spelled (v : option string) :
  truthy v = true <-> exists k, v = Some k /\ k <> "".
Proof.
  destruct v as [k|]; simpl.
  - rewrite negb_true_iff, String.eqb_neq. split.
    + intros H. now exists k.
    + intros (k' & E & H). now inversion E; subst.
  - split; [discriminate | intros (k & E & _); discriminate].
Qed.

(** X1. Every request is answered, and in one of three ways. Status 200
    with content type [application/json] and the serialized token request
    as body, exactly when the key is a non-empty string and both library
    calls return. Otherwise status 500, with [ABLY_API_KEY not set] when
    the key is undefined or the empty string and with
    [Failed to create token] when the library threw. The two error
    responses are built without headers, so their JSON bodies go out under
    the content type of a plain string, [text/plain;charset=UTF-8]. *)
Theorem GET_response_cases (env : Env) (ably : Ably) (rnd : N) :
  exists resp,
    fst (serve env ably rnd) = Normal resp /\
    ((status resp = 200%Z /\
      contentType resp = "application/json" /\
      exists k tok,
        ABLY_API_KEY env = Some k /\ k <> "" /\
        upstreamOutcome env ably rnd = Normal tok /\
        body resp = stringify tok)
     \/
     (status resp = 500%Z /\
      contentType resp = "text/plain;charset=UTF-8" /\
      body resp = error_body "ABLY_API_KEY not set" /\
      (ABLY_API_KEY env = None \/ ABLY_API_KEY env = Some ""))
     \/
     (status resp = 500%Z /\
      contentType resp = "text/plain;charset=UTF-8" /\
      body resp = error_body "Failed to create token" /\
      exists k e,
        ABLY_API_KEY env = Some k /\ k <> "" /\
        upstreamOutcome env ably rnd = Throw e)).
Proof.
  destruct (truthy (ABLY_API_KEY env)) eqn:Hk.
  - pose proof (proj1 (truthy_spelled _) Hk) as (k & Ek & Hne).
    destruct (upstreamOutcome env ably rnd) as [tok|e] eqn:Hu.
    + destruct (GET_upstream_answers env ably rnd tok Hk Hu) as (c & _ & ->).
      eexists. split; [reflexivity|]. left. simpl.
      repeat split. exists k, tok. repeat split; auto.
    + destruct (GET_upstream_throws env ably rnd e Hk Hu) as (calls & -> & _).
      eexists. split; [reflexivity|]. right; right. simpl.
      repeat split. exists k, e. repeat split; auto.
  - rewrite (GET_falsy_key env ably rnd Hk).
    eexists. split; [reflexivity|]. right; left. simpl. repeat split.
    destruct (ABLY_API_KEY env) as [k|]; [|now left].
    right. simpl in Hk. apply negb_false_iff, String.eqb_eq in Hk. now subst.
Qed.

(** X2. The calls of one request, in full: none when the key is falsy;
    otherwise the constructor once, with the key of the environment, then
    [createTokenRequest] once on the client it built, then [console.error]
    once if and only if one of the two threw. A constructor that throws is
    followed by the log entry alone; nothing is tried twice. *)
Theorem GET_call_sequence (env : Env) (ably : Ably) (rnd : N) :
  let key := ABLY_API_KEY env in
  let clientId := "amana-chat-user-" ++ decimal rnd in
  let calls := snd (serve env ably rnd) in
  (truthy key = false /\ calls = [])
  \/
  (truthy key = true /\
   ((exists e,
        Rest ably key = Throw e /\
        calls = [NewRest key; ConsoleError "Ably token error:" e])
    \/
    (exists client e,
        Rest ably key = Normal client /\
        createTokenRequest ably client clientId = Throw e /\
        calls = [NewRest key; CreateTokenRequest client clientId;
                 ConsoleError "Ably token error:" e])
    \/
    (exists client tok,
        Rest ably key = Normal client /\
        createTokenRequest ably client clientId = Normal tok /\
        calls = [NewRest key; CreateTokenRequest client clientId]))).
Proof.
  intros key clientId calls. unfold calls, key, clientId, serve, GET.
  destruct (truthy (ABLY_API_KEY env)) eqn:Hk; [right | left; split; reflexivity].
  split; [reflexivity|].
  unfold try_catch, bind, call, ret, console_error. simpl.
  destruct (Rest ably (ABLY_API_KEY env)) as [client|e] eqn:Hr; simpl.
  - destruct (createTokenRequest ably client
                (String "a" (String "m" (String "a" (String "n" (String "a"
                (String "-" (String "c" (String "h" (String "a" (String "t"
                (String "-" (String "u" (String "s" (String "e" (String "r"
                (String "-" (decimal rnd))))))))))))))))))
      as [tok|e] eqn:Hc; simpl.
    + right; right. exists client, tok. repeat split; auto.
    + right; left. exists client, e. repeat split; auto.
  - left. exists e. split; reflexivity.
Qed.

Lemma createdIdentities_serve (env : Env) (ably : Ably) (rnd : N) :
  createdIdentities (snd (serve env ably rnd)) = [] \/
  createdIdentities (snd (serve env ably rnd)) =
    ["amana-chat-user-" ++ decimal rnd].
Proof.
  destruct (truthy (ABLY_API_KEY env)) eqn:Hk.
  - destruct (upstreamOutcome env ably rnd) as [tok|e] eqn:Hu.
    + destruct (GET_upstream_answers env ably rnd tok Hk Hu) as (c & _ & ->).
      right. reflexivity.
    + unfold serve, GET, upstreamOutcome in *. rewrite Hk.
      unfold try_catch, bind, call, ret, console_error. simpl in *.
      destruct (Rest ably (ABLY_API_KEY env)) as [client|e0]; simpl in *.
      * rewrite Hu. simpl. right. reflexivity.
      * left. reflexivity.
  - rewrite (GET_falsy_key env ably rnd Hk). left. reflexivity.
Qed.

Lemma createdIdentity_of_draw (env : Env) (ably : Ably) (rnd : N) (cid : string) :
  In cid (createdIdentities (snd (serve env ably rnd))) ->
  cid = "amana-chat-user-" ++ decimal rnd.
Proof.
  intros H. destruct (createdIdentities_serve env ably rnd) as [E|E];
    rewrite E in H; simpl in H.
  - contradiction.
  - destruct H as [H|[]]. now symmetry.
Qed.

(** X3. The identity of a request is a function of its random draw and of
    nothing else, and an injective one: two requests that asked tokens for
    the same identity, under whatever keys and library answers, drew the
    same number. Identities collide exactly when the draws do. *)
Theorem GET_identity_collides_only_with_draw
  (env env' : Env) (ably ably' : Ably) (rnd rnd' : N) (cid : string) :
  In cid (createdIdentities (snd (serve env ably rnd))) ->
  In cid (createdIdentities (snd (serve env' ably' rnd'))) ->
  rnd = rnd'.
Proof.
  intros H H'.
  apply createdIdentity_of_draw in H. apply createdIdentity_of_draw in H'.
  rewrite H in H'. apply append_inj_l in H'. now apply decimal_inj.
Qed.

Lemma GET_identity_collides_only_with_draw_witness :
  let env := {| ABLY_API_KEY := Some "appid.keyid:one" |} in
  let env' := {| ABLY_API_KEY := Some "appid.keyid:two" |} in
  (In "amana-chat-user-42" (createdIdentities (snd (serve env signerDouble 42))) /\
   In "amana-chat-user-42"
      (createdIdentities (snd (serve env' (failingDouble (mkError "down")) 42)))) /\
  42%N = 42%N.
Proof.
  split; [split; simpl; left; reflexivity|].
  apply (GET_identity_collides_only_with_draw
           {| ABLY_API_KEY := Some "appid.keyid:one" |}
           {| ABLY_API_KEY := Some "appid.keyid:two" |}
           signerDouble (failingDouble (mkError "down")) 42 42
           "amana-chat-user-42"); simpl; left; reflexivity.
Defined.

(** X4. With a draw below 10000, as [Math.floor(Math.random() * 10000)]
    gives, an identity the handler asks a token for has between 17 and 20
    characters: the 16 of the prefix and one to four digits. *)
Theorem GET_identity_length
  (env : Env) (ably : Ably) (rnd : N) (cid : string) :
  (rnd < 10000)%N ->
  In cid (createdIdentities (snd (serve env ably rnd))) ->
  17 <= String.length cid <= 20.
Proof.
  intros Hr H. apply createdIdentity_of_draw in H. subst cid.
  rewrite length_append.
  pose proof (decimal_length_below_10000 rnd Hr). simpl. lia.
Qed.

Lemma GET_identity_length_witness :
  ((9999 < 10000)%N /\
   In "amana-chat-user-9999"
      (createdIdentities
         (snd (serve {| ABLY_API_KEY := Some "appid.keyid:one" |} signerDouble 9999))))
  /\
  17 <= String.length "amana-chat-user-9999" <= 20.
Proof.
  split; [split; [reflexivity | simpl; left; reflexivity]|].
  apply (GET_identity_length
           {| ABLY_API_KEY := Some "appid.keyid:one" |} signerDouble 9999
           "amana-chat-user-9999");
    [reflexivity | simpl; left; reflexivity].
Defined.

End RouteMore.

(** ** The chat component, further *)

Module ChatMore.
Import JS Chat ChatView StringFacts ChatFacts IdentityFacts.

Lemma run_cons (ev : Event) (events : list Event) (w : World) :
  run (ev :: events) w = run events (step ev w).
Proof. reflexivity. Qed.

(** Of an unmounted component nothing runs but the error handler left on
    the script element, which logs. *)
Lemma step_unmounted (ev : Event) (w : World) :
  mounted w = false ->
  step ev w =
  {| app := app w; mounted := false; session := session w; conn := conn w;
     log := (log w ++
             (if isScriptError ev
              then [ConsoleError "Failed to load Ably script from CDN."]
              else []))%list |}.
Proof.
  intros H. unfold step. rewrite H. simpl.
  destruct w as [a m s c l]. simpl in *. subst m.
  destruct ev; simpl; rewrite ?app_nil_r; reflexivity.
Qed.

Lemma run_unmounted (events : list Event) (w : World) :
  mounted w = false ->
  run events w =
  {| app := app w; mounted := false; session := session w; conn := conn w;
     log := (log w ++
             map (fun _ => ConsoleError "Failed to load Ably script from CDN.")
                 (filter isScriptError events))%list |}.
Proof.
  revert w. induction events as [|ev events IH]; intros w H.
  - simpl. rewrite app_nil_r. destruct w; simpl in *. now subst.
  - rewrite run_cons, IH by (rewrite (step_unmounted ev w H); reflexivity).
    rewrite (step_unmounted ev w H). simpl.
    destruct (isScriptError ev); simpl; rewrite <- ?app_assoc, ?app_nil_r;
      reflexivity.
Qed.

Lemma settled_init (rnd : N) : settled rnd (init rnd).
Proof.
  unfold settled; simpl. repeat split.
  repeat constructor.
Qed.

Lemma settled_unmounted (rnd : N) (ev : Event) (w : World) :
  mounted w = false -> settled rnd w -> settled rnd (step ev w).
Proof.
  intros Em (Hu & Hl & Hc & Ht). rewrite (step_unmounted ev w Em).
  rewrite Em in Ht. unfold settled; simpl.
  rewrite !filter_app, Ht.
  assert (Quiet : forall f : Effect -> bool,
             f (ConsoleError "Failed to load Ably script from CDN.") = false ->
             filter f (if isScriptError ev
                       then [ConsoleError "Failed to load Ably script from CDN."]
                       else []) = []).
  { intros f Hf. destruct (isScriptError ev); simpl; [rewrite Hf|]; reflexivity. }
  rewrite !Quiet by reflexivity. rewrite !app_nil_r.
  split; [exact Hu|]. split; [exact Hl|]. split; [|reflexivity].
  apply Forall_app. split; [exact Hc|].
  destruct (isScriptError ev); repeat constructor.
Qed.

Lemma settled_step (rnd : N) (ev : Event) (w : World) :
  settled rnd w -> settled rnd (step ev w).
Proof.
  intros Hw. destruct (mounted w) eqn:Em; [|now apply settled_unmounted].
  destruct Hw as (Hu & Hl & Hc & Ht). rewrite Em in Ht.
  unfold step. rewrite Em. simpl.
  destruct ev.
  - destruct (ablyScriptLoaded (app w)) eqn:El.
    + unfold settled. rewrite El, ?Em. auto.
    + destruct Hl as (Ha & Hch & Hs & Hset & Htx & Hms & Hp & Hcn).
      unfold connectEffect, bind, call, ret; simpl.
      unfold settled; simpl. rewrite <- !app_assoc. simpl.
      rewrite !filter_app, Hset, Ht. simpl.
      repeat split; auto.
      apply Forall_app. split; [exact Hc|]. repeat constructor.
  - unfold commit, settled; simpl. rewrite ?Em, !filter_app, Ht. simpl.
    rewrite !app_nil_r.
    split; [exact Hu|]. split.
    + destruct (ablyScriptLoaded (app w)); intuition.
    + split; [|reflexivity]. apply Forall_app. split; [exact Hc|].
      repeat constructor.
  - unfold settled; simpl. rewrite ?Em, Ht.
    split; [exact Hu|]. split; [|split; auto].
    destruct (ablyScriptLoaded (app w)); [exact Hl|].
    destruct Hl as (Ha & Hch & Hs & Hset & Htx & Hms & Hp & Hcn).
    rewrite Hcn, transport_idle. repeat split; auto.
  - destruct (session w) eqn:Es.
    + unfold commit, settled; simpl. rewrite ?Em, Ht, ?Es.
      split; [exact Hu|]. split; [|split; auto].
      destruct (ablyScriptLoaded (app w)); [exact Hl|].
      destruct Hl as (_ & _ & Hs & _). discriminate.
    + unfold settled. rewrite ?Em, Ht, ?Es. repeat split; auto.
  - destruct (ably (app w)) eqn:Ea.
    + unfold commit, settled; simpl. rewrite ?Em, Ht, ?Ea.
      split; [exact Hu|]. split; [|split; auto].
      destruct (ablyScriptLoaded (app w)); [exact Hl|].
      destruct Hl as (Ha & _). discriminate.
    + unfold settled. rewrite ?Em, Ht, ?Ea. repeat split; auto.
  - unfold commit.
    destruct (handleSendMessage_cases (app w) (log w))
      as [[E _]|(ch & Hne & Hch & E)]; rewrite E; simpl.
    + unfold settled; simpl. rewrite ?Em, !filter_app, Ht. simpl.
      rewrite !app_nil_r.
      split; [exact Hu|]. split; [exact Hl|].
      split; [|reflexivity]. apply Forall_app. split; [exact Hc|].
      repeat constructor.
    + unfold settled; simpl. rewrite ?Em, !filter_app, Ht. simpl.
      rewrite !app_nil_r.
      split; [exact Hu|].
      destruct (ablyScriptLoaded (app w)).
      * destruct Hl as (Ha & Hch' & Hs & Hset).
        split; [repeat split; auto|].
        split; [|reflexivity]. apply Forall_app. split; [exact Hc|].
        constructor; [exact I|]. constructor; [|constructor].
        simpl. rewrite Hch' in Hch. inversion Hch. repeat split; auto.
      * destruct Hl as (_ & Hch' & _). congruence.
  - unfold stop, removeScript; simpl. destruct (session w) eqn:Es; simpl.
    + unfold settled; simpl. rewrite <- ?app_assoc, !filter_app, Ht. simpl.
      rewrite !app_nil_r.
      split; [exact Hu|].
      destruct (ablyScriptLoaded (app w)).
      * destruct Hl as (Ha & Hch' & Hs & Hset).
        split; [repeat split; auto|].
        split; [|reflexivity]. apply Forall_app. split; [exact Hc|].
        constructor; [exact I|]. constructor; [|constructor].
        simpl. congruence.
      * destruct Hl as (_ & _ & Hs & _). discriminate.
    + unfold settled; simpl. rewrite ?Es, !filter_app, Ht. simpl.
      rewrite !app_nil_r.
      split; [exact Hu|]. split; [exact Hl|].
      split; [|reflexivity]. apply Forall_app. split; [exact Hc|].
      repeat constructor.
Qed.

Lemma settled_run (rnd : N) (events : list Event) :
  settled rnd (run events (init rnd)).
Proof.
  apply run_invariant; [apply settled_step | apply settled_init].
Qed.

(** *** The message log, event by event *)

Lemma run_heard (rnd : N) (events : list Event) (w : World) :
  settled rnd w -> mounted w = true ->
  messages (app (run events w)) =
  (messages (app w) ++ heard (ablyScriptLoaded (app w)) events)%list.
Proof.
  revert w. induction events as [|ev events IH]; intros w Hw Em.
  - simpl. symmetry. apply app_nil_r.
  - rewrite run_cons.
    pose proof (settled_step rnd ev w Hw) as Hw'.
    destruct Hw as (_ & Hl & _).
    destruct ev; simpl heard.
    + (* ScriptLoaded *)
      destruct (ablyScriptLoaded (app w)) eqn:El.
      * assert (E : step ScriptLoaded w = w)
          by (unfold step; rewrite Em, El; reflexivity).
        rewrite E in *. rewrite (IH w Hw' Em), El. reflexivity.
      * assert (E : mounted (step ScriptLoaded w) = true /\
                    ablyScriptLoaded (app (step ScriptLoaded w)) = true /\
                    messages (app (step ScriptLoaded w)) = messages (app w))
          by (unfold step; rewrite Em, El; simpl; auto).
        destruct E as (E1 & E2 & E3).
        rewrite (IH _ Hw' E1), E2, E3. reflexivity.
    + (* ScriptError *)
      assert (E : mounted (step ScriptError w) = true /\
                  app (step ScriptError w) = app w)
        by (unfold step; rewrite Em; simpl; auto).
      destruct E as (E1 & E2). rewrite (IH _ Hw' E1), E2. reflexivity.
    + (* Transport *)
      assert (E : mounted (step (Transport ev) w) = true /\
                  app (step (Transport ev) w) = app w)
        by (unfold step; rewrite Em; simpl; auto).
      destruct E as (E1 & E2). rewrite (IH _ Hw' E1), E2. reflexivity.
    + (* Inbound *)
      destruct (ablyScriptLoaded (app w)) eqn:El.
      * destruct Hl as (_ & _ & Hs & _).
        assert (E : mounted (step (Inbound msg) w) = true /\
                    app (step (Inbound msg) w) = onMessage msg (app w))
          by (unfold step; rewrite Em, Hs; simpl; auto).
        destruct E as (E1 & E2). rewrite (IH _ Hw' E1), E2. simpl.
        rewrite El, <- app_assoc. reflexivity.
      * destruct Hl as (_ & _ & Hs & _).
        assert (E : step (Inbound msg) w = w)
          by (unfold step; rewrite Em, Hs; reflexivity).
        rewrite E in *. rewrite (IH w Hw' Em), El. reflexivity.
    + (* Change *)
      assert (E : mounted (step (Change text) w) = true /\
                  messages (app (step (Change text) w)) = messages (app w) /\
                  ablyScriptLoaded (app (step (Change text) w)) =
                    ablyScriptLoaded (app w))
        by (unfold step; rewrite Em; simpl; destruct (ably (app w)); simpl; auto).
      destruct E as (E1 & E2 & E3). rewrite (IH _ Hw' E1), E2, E3. reflexivity.
    + (* Submit *)
      assert (E : mounted (step Submit w) = true /\
                  messages (app (step Submit w)) = messages (app w) /\
                  ablyScriptLoaded (app (step Submit w)) =
                    ablyScriptLoaded (app w)).
      { unfold step; rewrite Em; simpl. unfold commit; simpl.
        destruct (handleSendMessage_cases (app w) (log w))
          as [[E _]|(ch & _ & _ & E)]; rewrite E; simpl; auto. }
      destruct E as (E1 & E2 & E3). rewrite (IH _ Hw' E1), E2, E3. reflexivity.
    + (* Unmount *)
      assert (E : mounted (step Unmount w) = false /\
                  messages (app (step Unmount w)) = messages (app w)).
      { unfold step; rewrite Em; simpl. split; [reflexivity|].
        now rewrite stop_app. }
      destruct E as (E1 & E2).
      rewrite (run_unmounted events _ E1). simpl app.
      rewrite E2. symmetry. apply app_nil_r.
Qed.

(** X5. The message list is the inbound traffic the component was there
    to hear, no more and no less: after any sequence of events, [messages]
    holds exactly the inbound messages that came after the script loaded
    and before the unmount, in the order they came. Nothing is dropped,
    nothing is merged: a message delivered twice is listed twice. *)
Theorem messages_are_what_was_heard (events : list Event) (rnd : N) :
  messages (app (run events (init rnd))) = heard false events.
Proof.
  rewrite (run_heard rnd events (init rnd) (settled_init rnd) eq_refl).
  reflexivity.
Qed.

(** No deduplication: the same broker message replayed after a
    reconnection shows up twice; one that came before the script had
    loaded or after the unmount does not show up at all. *)
Example replay_is_listed_twice :
  let m := {| id := "m1"; name := "user-9"; data := "hi"; timestamp := 5 |} in
  messages (app (run [Inbound m; ScriptLoaded; Inbound m; Transport TConnected;
                      Transport TDropped; Transport TResumed; Inbound m;
                      Unmount; Inbound m] (init 7))) = [m; m].
Proof. reflexivity. Qed.

(** *** Calls of the log *)

(** X6. The session is set up at most once. After any sequence of events
    the set-up calls of the log are either none (the script has not
    loaded) or exactly one [new Realtime({authUrl: /api/ably-token})], one
    [channels.get(amana-chat)] on that client and one [subscribe] on that
    channel, in this order, and then [ably] and [channel] hold that client
    and that channel. A second load event subscribes no second time. *)
Theorem session_set_up_once (events : list Event) (rnd : N) :
  let w := run events (init rnd) in
  (ablyScriptLoaded (app w) = false /\
   filter isSetup (log w) = [] /\
   ably (app w) = None /\ channel (app w) = None)
  \/
  (ablyScriptLoaded (app w) = true /\
   filter isSetup (log w) =
     [NewRealtime "/api/ably-token"; ChannelsGet theClient "amana-chat";
      Subscribe theChannel] /\
   ably (app w) = Some theClient /\ channel (app w) = Some theChannel).
Proof.
  intros w. destruct (settled_run rnd events) as (_ & Hl & _). fold w in Hl.
  destruct (ablyScriptLoaded (app w)).
  - right. destruct Hl as (Ha & Hc & _ & Hs). auto.
  - left. destruct Hl as (Ha & Hc & _ & Hs & _). auto.
Qed.

(** X7. Every publish the component ever makes goes to the channel
    [amana-chat] of its one client, under the user name drawn at the first
    render (which never changes), with a text that is not blank; every
    [close()] goes to that same client. *)
Theorem publishes_are_in_order (events : list Event) (rnd : N) (e : Effect) :
  In e (log (run events (init rnd))) ->
  callInOrder rnd e /\
  username (app (run events (init rnd))) = "user-" ++ decimal rnd.
Proof.
  intros Hin. destruct (settled_run rnd events) as (Hu & _ & Hc & _).
  split; [|exact Hu].
  rewrite Forall_forall in Hc. now apply Hc.
Qed.

Lemma publishes_are_in_order_witness :
  let events := [ScriptLoaded; Change " hello "; Submit; Unmount] in
  In (Publish theChannel "user-7" " hello ") (log (run events (init 7))) /\
  callInOrder 7 (Publish theChannel "user-7" " hello ") /\
  username (app (run events (init 7))) = "user-" ++ decimal 7.
Proof.
  split.
  - simpl. do 5 right. left. reflexivity.
  - apply (publishes_are_in_order
             [ScriptLoaded; Change " hello "; Submit; Unmount] 7).
    simpl. do 5 right. left. reflexivity.
Defined.

Lemma mounted_run (events : list Event) (w : World) :
  mounted (run events w) = mounted w && negb (existsb isUnmount events).
Proof.
  revert w. induction events as [|ev events IH]; intros w.
  - simpl. now rewrite andb_true_r.
  - rewrite run_cons, IH, mounted_step. simpl.
    rewrite negb_orb, andb_assoc. destruct ev; reflexivity.
Qed.

Lemma handleSendMessage_console (s : AppState) (t : list Effect) :
  filter isConsoleError (snd (handleSendMessage s t)) = filter isConsoleError t.
Proof.
  destruct (handleSendMessage_cases s t) as [[E _]|(ch & _ & _ & E)]; rewrite E;
    simpl; rewrite filter_app; simpl; apply app_nil_r.
Qed.

Lemma console_step (ev : Event) (w : World) :
  filter isConsoleError (log (step ev w)) =
  (filter isConsoleError (log w) ++
   (if isScriptError ev
    then [ConsoleError "Failed to load Ably script from CDN."] else []))%list.
Proof.
  destruct (mounted w) eqn:Em.
  - unfold step. rewrite Em. simpl.
    destruct ev; simpl; rewrite ?app_nil_r; try reflexivity.
    + destruct (ablyScriptLoaded (app w)); [reflexivity|].
      unfold connectEffect, bind, call, ret; simpl.
      rewrite <- !app_assoc, filter_app. simpl. apply app_nil_r.
    + rewrite filter_app. reflexivity.
    + destruct (session w); reflexivity.
    + destruct (ably (app w)); reflexivity.
    + apply handleSendMessage_console.
    + unfold stop, removeScript; simpl.
      destruct (session w); simpl; rewrite !filter_app; simpl;
        rewrite ?app_nil_r; reflexivity.
  - rewrite (step_unmounted ev w Em). simpl. rewrite filter_app.
    destruct (isScriptError ev); reflexivity.
Qed.

Lemma console_run (events : list Event) (w : World) :
  filter isConsoleError (log (run events w)) =
  (filter isConsoleError (log w) ++
   map (fun _ => ConsoleError "Failed to load Ably script from CDN.")
       (filter isScriptError events))%list.
Proof.
  revert w. induction events as [|ev events IH]; intros w.
  - simpl. symmetry. apply app_nil_r.
  - rewrite run_cons, IH, console_step, <- app_assoc. simpl.
    destruct (isScriptError ev); reflexivity.
Qed.

(** X8. The script tag and its error handler. After any sequence of
    events the page has seen the script tag appended once and, if and only
    if the component was unmounted, removed once. The error handler stays
    on the script element for good: every load error is logged with
    [console.error], once, whether it comes while the component is
    mounted or after it was unmounted, and the component logs nothing
    else. *)
Theorem script_tag_and_load_errors (events : list Event) (rnd : N) :
  let w := run events (init rnd) in
  filter isScriptTag (log w) =
    (if existsb isUnmount events
     then [AppendScript cdn; RemoveScript cdn]
     else [AppendScript cdn]) /\
  filter isConsoleError (log w) =
    map (fun _ => ConsoleError "Failed to load Ably script from CDN.")
        (filter isScriptError events).
Proof.
  intros w. split.
  - destruct (settled_run rnd events) as (_ & _ & _ & Ht). fold w in Ht.
    rewrite Ht. unfold w. rewrite mounted_run. simpl.
    destruct (existsb isUnmount events); reflexivity.
  - apply (console_run events (init rnd)).
Qed.

(** A load error that comes after the unmount is logged all the same. *)
Example load_error_after_unmount :
  log (run [Unmount; ScriptError] (init 7)) =
  [AppendScript cdn; RemoveScript cdn;
   ConsoleError "Failed to load Ably script from CDN."].
Proof. reflexivity. Qed.

(** *** The form *)

Lemma published_send (s : AppState) :
  published (send s) = negb (trim (messageText s) =? "") && negb (isNull (channel s)).
Proof.
  unfold published, send.
  destruct (handleSendMessage_cases s []) as [[E Hwhy]|(ch & Hne & Hch & E)];
    rewrite E; simpl.
  - destruct Hwhy as [Hb|Hn].
    + rewrite Hb. reflexivity.
    + rewrite Hn. simpl. now rewrite andb_false_r.
  - rewrite Hch. apply String.eqb_neq in Hne. rewrite Hne. reflexivity.
Qed.

(** X9. Through the page the guard on the channel never drops a typed
    text. After any sequence of events: the text is non-empty only if the
    client and the channel exist; a submit publishes exactly when the text
    is not blank; and the Send button is enabled exactly when a submit
    would publish. *)
Theorem send_button_tells_the_truth (events : list Event) (rnd : N) :
  let w := run events (init rnd) in
  (ably (app w) = None -> messageText (app w) = "") /\
  published (send (app w)) = negb (trim (messageText (app w)) =? "") /\
  sendDisabled (render (app w)) = negb (published (send (app w))).
Proof.
  intros w. destruct (settled_run rnd events) as (_ & Hl & _). fold w in Hl.
  rewrite published_send. unfold render; simpl.
  destruct (ablyScriptLoaded (app w)).
  - destruct Hl as (Ha & Hc & _). rewrite Ha, Hc. simpl.
    rewrite andb_true_r, negb_involutive. repeat split. discriminate.
  - destruct Hl as (Ha & Hc & _ & _ & Ht & _). rewrite Ha, Hc, Ht. simpl.
    repeat split.
Qed.

(** X10. A submit repeated at once publishes nothing more: after one
    submit the text is either blank or was never publishable, so the second
    leaves the state alone and adds no publish to the log. A double click
    on Send sends one message. *)
Theorem second_submit_publishes_nothing (w : World) :
  app (step Submit (step Submit w)) = app (step Submit w) /\
  filter isPublish (log (step Submit (step Submit w))) =
  filter isPublish (log (step Submit w)).
Proof.
  destruct (mounted w) eqn:Em.
  - assert (Em' : mounted (step Submit w) = true)
      by (rewrite mounted_step, Em; reflexivity).
    assert (Drop : trim (messageText (app (step Submit w))) = "" \/
                   channel (app (step Submit w)) = None).
    { unfold step. rewrite Em. simpl. unfold commit.
      destruct (handleSendMessage_cases (app w) (log w))
        as [[E Hwhy]|(ch & _ & _ & E)]; rewrite E; simpl.
      - exact Hwhy.
      - left. reflexivity. }
    set (w1 := step Submit w) in *.
    unfold step. rewrite Em'. simpl. unfold commit.
    assert (E : handleSendMessage (app w1) (log w1) =
                (Normal (app w1), (log w1 ++ [PreventDefault])%list)).
    { destruct Drop as [Hb|Hn].
      - now apply handleSendMessage_blank.
      - now apply handleSendMessage_no_channel. }
    rewrite E. simpl. split; [reflexivity|].
    rewrite filter_app. simpl. apply app_nil_r.
  - rewrite !(step_unmounted Submit w Em).
    split; reflexivity.
Qed.

(** X11. Typing and sending. In a mounted component whose script has
    loaded, typing a text that is not blank and submitting it publishes
    that text once, as typed (untrimmed), under the user name, on the chat
    channel; the input is empty afterwards, the Send button is disabled
    again, and the message list is as before: the message is not shown
    until the broker brings it back. *)
Theorem typed_text_is_published (events : list Event) (rnd : N) (text : string) :
  let w := run events (init rnd) in
  let w' := run [Change text; Submit] w in
  mounted w = true ->
  ablyScriptLoaded (app w) = true ->
  trim text <> "" ->
  log w' =
    (log w ++ [PreventDefault;
               Publish theChannel ("user-" ++ decimal rnd) text])%list /\
  inputValue (render (app w')) = "" /\
  sendDisabled (render (app w')) = true /\
  items (render (app w')) = items (render (app w)).
Proof.
  intros w w' Em El Hne. destruct (settled_run rnd events) as (Hu & Hl & _).
  fold w in Hu, Hl. rewrite El in Hl. destruct Hl as (Ha & Hc & _).
  unfold w'. rewrite !run_cons. simpl run.
  assert (E1 : step (Change text) w =
               commit w (Normal (setMessageText text (app w)), log w))
    by (unfold step; rewrite Em, Ha; reflexivity).
  rewrite E1. unfold step. simpl. rewrite Em. simpl.
  rewrite (handleSendMessage_publish (setMessageText text (app w)) (log w)
             theChannel Hne Hc).
  unfold commit, render; simpl. rewrite Hu, Ha. repeat split.
Qed.

Lemma typed_text_is_published_witness :
  let w := run [ScriptLoaded; Transport TConnected] (init 7) in
  let w' := run [Change "  hi there "; Submit] w in
  (mounted w = true /\ ablyScriptLoaded (app w) = true /\
   trim "  hi there " <> "") /\
  log w' =
    (log w ++ [PreventDefault;
               Publish theChannel ("user-" ++ decimal 7) "  hi there "])%list /\
  inputValue (render (app w')) = "" /\
  sendDisabled (render (app w')) = true /\
  items (render (app w')) = items (render (app w)).
Proof.
  split; [repeat split; discriminate|].
  apply (typed_text_is_published [ScriptLoaded; Transport TConnected] 7
           "  hi there "); [reflexivity | reflexivity | discriminate].
Defined.

(** X12. Whose message it is. A message that carries the name under which
    the component publishes is shown as [You], in the style of own
    messages; a message under any other name is shown under that name, in
    the other style. This holds after any sequence of events, for the
    messages in the list and for one that arrives next: the label goes by
    the name alone, so a stranger who drew the same number is [You] as
    well. *)
Theorem own_messages_are_labelled_You
  (events : list Event) (rnd : N) (msg : AblyMessage) :
  let w := run events (init rnd) in
  let item := renderMessage (username (app w)) msg in
  (name msg = "user-" ++ decimal rnd ->
   senderLabel item = "You" /\ bubbleOwn item = true) /\
  (name msg <> "user-" ++ decimal rnd ->
   senderLabel item = name msg /\ bubbleOwn item = false) /\
  (mounted w = true -> ablyScriptLoaded (app w) = true ->
   items (render (app (step (Inbound msg) w))) =
     (items (render (app w)) ++ [item])%list).
Proof.
  intros w item. destruct (settled_run rnd events) as (Hu & Hl & _).
  fold w in Hu, Hl. unfold item, renderMessage. rewrite Hu. simpl.
  split; [|split].
  - intros Hn. rewrite Hn, String.eqb_refl. split; reflexivity.
  - intros Hn. apply String.eqb_neq in Hn. rewrite Hn. split; reflexivity.
  - intros Em El. rewrite El in Hl. destruct Hl as (_ & _ & Hs & _).
    unfold step. rewrite Em, Hs. simpl.
    rewrite map_app. simpl. rewrite Hu. reflexivity.
Qed.

Lemma own_messages_are_labelled_You_witness :
  let w := run [ScriptLoaded; Change "hello"; Submit] (init 7) in
  let echo := {| id := "m1"; name := "user-7"; data := "hello"; timestamp := 9 |} in
  (name echo = "user-" ++ decimal 7 /\ mounted w = true /\
   ablyScriptLoaded (app w) = true) /\
  senderLabel (renderMessage (username (app w)) echo) = "You" /\
  items (render (app (step (Inbound echo) w))) =
    (items (render (app w)) ++ [renderMessage (username (app w)) echo])%list.
Proof.
  split; [repeat split|].
  pose proof (own_messages_are_labelled_You
                [ScriptLoaded; Change "hello"; Submit] 7
                {| id := "m1"; name := "user-7"; data := "hello"; timestamp := 9 |})
    as H.
  cbv zeta in H. destruct H as (H1 & _ & H3).
  split; [exact (proj1 (H1 eq_refl)) | exact (H3 eq_refl eq_refl)].
Defined.

(** *** The page and the script *)

Lemma loaded_step (ev : Event) (w : World) :
  (ablyScriptLoaded (app w) = true ->
   ablyScriptLoaded (app (step ev w)) = true) /\
  (ablyScriptLoaded (app (step ev w)) = true ->
   ablyScriptLoaded (app w) = true \/ ev = ScriptLoaded).
Proof.
  unfold step. destruct (mounted w); simpl; [|destruct ev; simpl; tauto].
  destruct ev; simpl; try tauto.
  - destruct (ablyScriptLoaded (app w)) eqn:El; [rewrite El; tauto|].
    unfold connectEffect, bind, call, ret; simpl. split; auto.
  - destruct (session w); simpl; tauto.
  - destruct (ably (app w)); simpl; tauto.
  - unfold commit; simpl.
    destruct (handleSendMessage_frame (app w) (log w)) as (s' & -> & _ & _ & El & _).
    rewrite El. tauto.
  - rewrite stop_app. simpl. tauto.
Qed.

Lemma loaded_run (events : list Event) (w : World) :
  (ablyScriptLoaded (app w) = true ->
   ablyScriptLoaded (app (run events w)) = true) /\
  (ablyScriptLoaded (app (run events w)) = true ->
   ablyScriptLoaded (app w) = true \/ existsb isScriptLoaded events = true).
Proof.
  revert w. induction events as [|ev events IH]; intros w.
  - simpl. tauto.
  - rewrite run_cons. destruct (IH (step ev w)) as [IH1 IH2].
    destruct (loaded_step ev w) as [S1 S2]. split.
    + auto.
    + intros H. apply IH2 in H. destruct H as [H|H].
      * apply S2 in H. destruct H as [H|H]; [now left|].
        right. subst ev. reflexivity.
      * right. simpl. rewrite H. apply orb_true_r.
Qed.

Lemma render_settled (rnd : N) (w : World) :
  settled rnd w ->
  if ablyScriptLoaded (app w)
  then readyPage (render (app w))
  else loadingPage (render (app w)).
Proof.
  intros (_ & Hl & _). unfold readyPage, loadingPage, render; simpl.
  destruct (ablyScriptLoaded (app w)).
  - destruct Hl as (Ha & _). rewrite Ha. simpl.
    repeat split. destruct (messages (app w)); reflexivity.
  - destruct Hl as (Ha & _ & _ & _ & Ht & Hm & _). rewrite Ha, Ht, Hm.
    repeat split.
Qed.

Lemma shown_settled (rnd : N) (ev : Event) (w : World) :
  settled rnd w ->
  Forall (fun v => loadingPage v \/ connectingPage v \/ readyPage v)
         (shown ev w) /\
  (ablyScriptLoaded (app w) = true -> Forall readyPage (shown ev w)).
Proof.
  intros Hw.
  pose proof (render_settled rnd w Hw) as Rw.
  pose proof (render_settled rnd (step ev w) (settled_step rnd ev w Hw)) as Rs.
  assert (Any : loadingPage (render (app (step ev w))) \/
                connectingPage (render (app (step ev w))) \/
                readyPage (render (app (step ev w))))
    by (destruct (ablyScriptLoaded (app (step ev w))); auto).
  assert (Keep : ablyScriptLoaded (app w) = true ->
                 readyPage (render (app (step ev w)))).
  { intros El. rewrite (proj1 (loaded_step ev w) El) in Rs. exact Rs. }
  unfold shown. destruct (mounted w); simpl; [|split; constructor].
  destruct ev;
    try (split; [constructor; [exact Any | constructor]
                | intros El; constructor; [exact (Keep El) | constructor]]).
  - destruct (ablyScriptLoaded (app w)) eqn:El.
    + split; [constructor; [right; right; exact Rw | constructor]
             | intros _; constructor; [exact Rw | constructor]].
    + split; [|discriminate].
      constructor; [|constructor; [exact Any | constructor]].
      right; left.
      destruct Hw as (_ & Hl & _). rewrite El in Hl.
      destruct Hl as (Ha & _ & _ & _ & Ht & Hm & _).
      unfold connectingPage, render; simpl. rewrite Ha, Ht, Hm. repeat split.
  - split; [|intros _]; constructor.
Qed.

Lemma pages_settled (rnd : N) (events : list Event) (w : World) :
  settled rnd w ->
  Forall (fun v => loadingPage v \/ connectingPage v \/ readyPage v)
         (pages events w) /\
  (ablyScriptLoaded (app w) = true -> Forall readyPage (pages events w)).
Proof.
  revert w. induction events as [|ev events IH]; intros w Hw; simpl.
  - split; [|intros _]; constructor.
  - destruct (shown_settled rnd ev w Hw) as [S1 S2].
    destruct (IH (step ev w) (settled_step rnd ev w Hw)) as [P1 P2].
    split.
    + apply Forall_app. split; assumption.
    + intros El. apply Forall_app. split; [auto|].
      apply P2. apply (proj1 (loaded_step ev w) El).
Qed.

Lemma pages_keep_messages (rnd : N) (events : list Event) (w : World) :
  settled rnd w -> ablyScriptLoaded (app w) = true ->
  messages (app w) <> [] ->
  Forall (fun v => notices v = []) (pages events w).
Proof.
  revert w. induction events as [|ev events IH]; intros w Hw El Hm; simpl.
  - constructor.
  - assert (El' : ablyScriptLoaded (app (step ev w)) = true)
      by (apply (proj1 (loaded_step ev w) El)).
    assert (Hm' : messages (app (step ev w)) <> []).
    { destruct (step_messages_extends ev w) as (tail & ->).
      destruct (messages (app w)); [congruence | discriminate]. }
    assert (Quiet : forall s, ablyScriptLoaded s = true -> messages s <> [] ->
                              notices (render s) = []).
    { intros s Hl Hn. unfold render; simpl. rewrite Hl. simpl.
      destruct (messages s); [congruence | reflexivity]. }
    apply Forall_app. split.
    + unfold shown. destruct (mounted w); simpl; [|constructor].
      destruct ev;
        try (constructor; [now apply Quiet | constructor]).
      * rewrite El. constructor; [|constructor].
        apply Quiet; [exact El|].
        intros Hn. apply Hm. exact Hn.
      * constructor.
    + apply IH; auto. now apply settled_step.
Qed.

(** X13. What the page shows follows the script and nothing else. Every
    page of the life of a component is one of three. The loading page,
    until the script has loaded: the notice [Loading Ably...], an empty
    list, a disabled input with the placeholder [Connecting to chat...]
    and a disabled Send button. The connecting page, committed once
    between the load of the script and the run of the connecting effect:
    the same, but for the notice, which already reads
    [No messages yet. Say hello!]. The ready page from then on: the input
    enabled with the placeholder [Type your message...], and the one
    notice left is [No messages yet. Say hello!] while the list is empty.
    Between two events the page is the loading page or the ready page,
    and nothing is ever taken back: once the script has loaded every
    later page is a ready page, whatever happens to the connection, and
    once a message is listed no notice comes back. *)
Theorem page_follows_script (events later : list Event) (rnd : N) :
  let w := run events (init rnd) in
  Forall (fun v => loadingPage v \/ connectingPage v \/ readyPage v)
         (screen events rnd) /\
  (ablyScriptLoaded (app w) = false -> loadingPage (render (app w))) /\
  (ablyScriptLoaded (app w) = true ->
   readyPage (render (app w)) /\
   Forall readyPage (pages later w) /\
   (notices (render (app w)) = [] ->
    Forall (fun v => notices v = []) (pages later w))).
Proof.
  intros w.
  assert (Hw : settled rnd w) by apply settled_run.
  pose proof (render_settled rnd w Hw) as Rw.
  split; [|split].
  - unfold screen. constructor.
    + left. apply (render_settled rnd (init rnd) (settled_init rnd)).
    + apply (pages_settled rnd events (init rnd) (settled_init rnd)).
  - intros El. rewrite El in Rw. exact Rw.
  - intros El. rewrite El in Rw. split; [exact Rw|]. split.
    + apply (pages_settled rnd later w Hw). exact El.
    + intros Hn. apply (pages_keep_messages rnd later w Hw El).
      intros Hm. unfold render in Hn; simpl in Hn.
      rewrite El, Hm in Hn. discriminate.
Qed.

Lemma page_follows_script_witness :
  let w := run [ScriptLoaded; Transport TFailed;
                Inbound {| id := "m1"; name := "user-2"; data := "hi";
                           timestamp := 3 |}] (init 7) in
  let later := [Transport TDropped; Change "x"; Submit] in
  (conn w = Failed /\ ablyScriptLoaded (app w) = true /\
   notices (render (app w)) = []) /\
  readyPage (render (app w)) /\
  Forall readyPage (pages later w) /\
  Forall (fun v => notices v = []) (pages later w).
Proof.
  split; [repeat split|].
  pose proof (page_follows_script
                [ScriptLoaded; Transport TFailed;
                 Inbound {| id := "m1"; name := "user-2"; data := "hi";
                            timestamp := 3 |}]
                [Transport TDropped; Change "x"; Submit] 7) as H.
  cbv zeta in H. destruct H as (_ & _ & H).
  destruct (H eq_refl) as (H1 & H2 & H3).
  split; [exact H1|]. split; [exact H2 | exact (H3 eq_refl)].
Defined.

(** The three pages of a load: loading, then connecting, then ready. *)
Example pages_of_a_load :
  match screen [ScriptLoaded] 7 with
  | [first; second; third] =>
      loadingPage first /\ connectingPage second /\ readyPage third /\
      notices second = ["No messages yet. Say hello!"] /\
      inputDisabled second = true
  | _ => False
  end.
Proof. simpl. repeat split. Qed.

(** X14. If the script never loads, the chat is inert. After any sequence
    of events without a load event (load errors, submits, stray inbound
    messages, an unmount) the state is the one of the first render, the
    connection is idle, and no call was ever made to Ably: no client, no
    subscription, no publish, no close. *)
Theorem inert_without_script (events : list Event) (rnd : N) :
  existsb isScriptLoaded events = false ->
  let w := run events (init rnd) in
  app w = initialState rnd /\ conn w = Idle /\ session w = None /\
  filter isSetup (log w) = [] /\ filter isPublish (log w) = [] /\
  closeCalls w = 0.
Proof.
  intros Hno w. destruct (settled_run rnd events) as (Hu & Hl & _).
  fold w in Hu, Hl.
  assert (El : ablyScriptLoaded (app w) = false).
  { destruct (ablyScriptLoaded (app w)) eqn:El; [|reflexivity].
    destruct (proj2 (loaded_run events (init rnd)) El) as [H|H].
    - discriminate H.
    - congruence. }
  rewrite El in Hl. destruct Hl as (Ha & Hc & Hs & Hset & Ht & Hm & Hp & Hcn).
  repeat split; auto.
  - destruct (app w) as [a c m t u l]. simpl in *. unfold initialState.
    subst a c m t u l. reflexivity.
  - now apply no_session_no_close.
Qed.

Lemma inert_without_script_witness :
  let events := [ScriptError; Change "hello"; Submit;
                 Inbound {| id := "m1"; name := "user-2"; data := "hi";
                            timestamp := 3 |};
                 Transport TConnected; Unmount] in
  existsb isScriptLoaded events = false /\
  app (run events (init 7)) = initialState 7 /\
  filter isPublish (log (run events (init 7))) = [] /\
  log (run events (init 7)) =
    [AppendScript cdn; ConsoleError "Failed to load Ably script from CDN.";
     PreventDefault; RemoveScript cdn].
Proof.
  split; [reflexivity|].
  pose proof (inert_without_script
                [ScriptError; Change "hello"; Submit;
                 Inbound {| id := "m1"; name := "user-2"; data := "hi";
                            timestamp := 3 |};
                 Transport TConnected; Unmount] 7 eq_refl) as H.
  cbv zeta in H. destruct H as (H1 & _ & _ & _ & H2 & _).
  split; [exact H1|]. split; [exact H2 | reflexivity].
Defined.

(** *** The connection *)

Lemma sameButConn_refl (w : World) : sameButConn w w.
Proof. repeat split. Qed.

Lemma sameButConn_trans (a b c : World) :
  sameButConn a b -> sameButConn b c -> sameButConn a c.
Proof.
  intros (A1 & A2 & A3 & A4) (B1 & B2 & B3 & B4).
  repeat split; congruence.
Qed.

Lemma sameButConn_step (ev : Event) (w w' : World) :
  sameButConn w w' -> sameButConn (step ev w) (step ev w').
Proof.
  destruct w as [a m s c l], w' as [a' m' s' c' l'].
  intros (E1 & E2 & E3 & E4). simpl in *. subst a' m' s' l'.
  unfold step; simpl. destruct m; simpl; [|destruct ev; repeat split].
  destruct ev; simpl.
  - destruct (ablyScriptLoaded a); [repeat split|].
    unfold connectEffect, bind, call, ret; simpl. repeat split.
  - repeat split.
  - repeat split.
  - destruct s; repeat split.
  - destruct (ably a); repeat split.
  - repeat split.
  - unfold stop, removeScript; simpl. destruct s; repeat split.
Qed.

Lemma sameButConn_run (events : list Event) (w w' : World) :
  sameButConn w w' -> sameButConn (run events w) (run events w').
Proof.
  revert w w'. induction events as [|ev events IH]; intros w w' H; [exact H|].
  rewrite !run_cons. apply IH. now apply sameButConn_step.
Qed.

Lemma sameButConn_transport (t : TransportEvent) (w : World) :
  sameButConn (step (Transport t) w) w.
Proof.
  unfold step. destruct (mounted w) eqn:Em; simpl; repeat split. now rewrite Em.
Qed.

(** X15. The component is blind to the connection. Take any sequence of
    events and strike out the moves of the connection (connected, dropped,
    re-established, failed): the component ends in the same state, shows
    the same page and has made the same calls as with them. A lost or
    failed connection changes nothing the user can see, and a publish is
    attempted all the same. *)
Theorem blind_to_connection (events : list Event) (rnd : N) :
  let quiet := filter (fun ev => negb (isTransportEvent ev)) events in
  let w := run events (init rnd) in
  let w' := run quiet (init rnd) in
  app w = app w' /\ render (app w) = render (app w') /\
  log w = log w' /\ mounted w = mounted w'.
Proof.
  intros quiet w w'.
  assert (H : sameButConn w w').
  { unfold w, w', quiet. generalize (init rnd) as w0.
    induction events as [|ev events IH]; intros w0; [apply sameButConn_refl|].
    destruct ev; simpl filter; rewrite ?run_cons; try apply IH.
    apply sameButConn_trans with (run events w0); [|apply IH].
    apply sameButConn_run, sameButConn_transport. }
  destruct H as (Ha & Hm & _ & Hl). rewrite Ha. repeat split; assumption.
Qed.

(** *** The user name *)

(** X16. The user name is drawn once. After any sequence of events it is
    still [user-] followed by the decimal digits of the draw of the first
    render, it matches [user-\d+], and it is the name the header shows.
    Two components carry the same name exactly when they drew the same
    number; with a draw below 10000 the name has six to nine characters. *)
Theorem username_is_drawn_once
  (events events' : list Event) (rnd rnd' : N) :
  let w := run events (init rnd) in
  let w' := run events' (init rnd') in
  username (app w) = "user-" ++ decimal rnd /\
  headerUsername (render (app w)) = username (app w) /\
  matchesPrefixDigits "user-" (username (app w)) = true /\
  (username (app w) = username (app w') <-> rnd = rnd') /\
  ((rnd < 10000)%N -> 6 <= String.length (username (app w)) <= 9).
Proof.
  intros w w'.
  destruct (settled_run rnd events) as (Hu & _).
  destruct (settled_run rnd' events') as (Hu' & _).
  fold w in Hu. fold w' in Hu'. rewrite Hu, Hu'.
  split; [reflexivity|]. split; [unfold render; simpl; exact Hu|].
  split; [apply (clientId_matches "user-" rnd)|].
  split.
  - split.
    + intros H. apply append_inj_l in H. now apply decimal_inj.
    + intros ->. reflexivity.
  - intros Hr. rewrite length_append.
    pose proof (decimal_length_below_10000 rnd Hr). simpl. lia.
Qed.

End ChatMore.
